(** * CircularTimer: a shallow embedding of the countdown widget

    The component of [circular-timer.tsx] is embedded as follows.

    - JavaScript numbers that the code keeps integral ([timeLeft], ring
      and sequence indices, frame handles) are [Z] or [nat].
    - Frame timestamps and the [percentage] of [getCircleColor] are exact
      rationals ([Q]); [Math.floor] and [Math.ceil] are [Qfloor] and
      [Qceiling].
    - The geometry of the layout (coordinates, [Math.PI], [Math.cos],
      [Math.sin]) is over the real numbers [R]; IEEE rounding is not
      modelled.
    - The source computes with doubles.  The exact numbers agree with them
      where a statement below depends on the value of a floor or a ceiling:
      for timestamps in whole milliseconds (their differences and the
      quotients by 1000 are exact below 2^53), and for the 111 dots of the
      layout, where the product under the ceiling is never an integer while
      [2 <= timeLeft <= 59] ([layout_ceiling_not_integral]).  Statements on
      coordinates are inequalities that hold with a margin.
    - React state, the two refs and the host's queue of requested animation
      frames are one record, [Widget]; every handler is a function on it,
      and [commit] replays the timer effect (cleanup, then body) whenever
      one of its dependencies [isRunning], [timeLeft] changed.  A handler,
      the render it causes and the effects of that render are one atomic
      transition. *)

From Stdlib Require Import ZArith QArith Qround Reals Lra Lia Psatz.
From Stdlib Require Import List String Bool Machin.
Import ListNotations.

Local Open Scope Z_scope.

(** ** Data model *)

Record CirclePosition : Type := mkCirclePosition
  { x : R;
    y : R;
    ring : Z;
    sequenceIndex : Z;
    anglePosition : Z;
    totalInRing : Z }.

(** A requested animation frame: the handle returned by
    [requestAnimationFrame] and the value of [isRunning] captured by the
    [updateTimer] closure that was registered. *)
Record FrameRequest : Type := mkFrameRequest
  { handle : nat;
    closureIsRunning : bool }.

Record Widget : Type := mkWidget
  { timeLeft : Z;
    isRunning : bool;
    hasStarted : bool;
    circlePositions : list CirclePosition;
    isClient : bool;
    animationFrameRef : option nat;
    startTimeRef : option Q;
    pendingFrames : list FrameRequest;
    nextHandle : nat }.

(** ** Geometry constants *)

Definition CIRCLE_SIZE : R := 8.
Definition RADIUS : R := 96.
Definition PADDING : R := CIRCLE_SIZE * 2.
Definition SIZE : R := (RADIUS + PADDING) * 2.
Definition CENTER : R := SIZE / 2.

(** ** generateCirclePositions

    [NUM_RINGS] is 5 in the source; it is a parameter here so that the
    spacing formula can be studied for any ring count. *)

Section Layout.

Variable NUM_RINGS : nat.

Definition SPACING : R := RADIUS / INR NUM_RINGS.

Definition ringRadius (ring : Z) : R := IZR ring * SPACING.

Definition circumference (ring : Z) : R := 2 * PI * ringRadius ring.

Definition numCircles (ring : Z) : Z :=
  Zfloor (circumference ring / (CIRCLE_SIZE * 2)).

Definition ringAngleStep (ring : Z) : R := (2 * PI) / IZR (numCircles ring).

Definition angle (ring i : Z) : R := IZR i * ringAngleStep ring.

(** The object pushed by one iteration of the inner loop. *)
Definition circleAt (ring i sequenceIndex : Z) : CirclePosition :=
  {| x := CENTER + ringRadius ring * cos (angle ring i);
     y := CENTER + ringRadius ring * sin (angle ring i);
     ring := ring;
     sequenceIndex := sequenceIndex;
     anglePosition := i;
     totalInRing := numCircles ring |}.

(** [for (let i = 0; i < numCircles; i++)], with [iterations] the
    number of times the body still runs. *)
Fixpoint ringLoop (ring : Z) (iterations : nat) (i sequenceIndex : Z)
  : list CirclePosition :=
  match iterations with
  | O => []
  | S n => circleAt ring i sequenceIndex
           :: ringLoop ring n (i + 1) (sequenceIndex + 1)
  end.

Definition ringCircles (ring sequenceIndex : Z) : list CirclePosition :=
  ringLoop ring (Z.to_nat (numCircles ring)) 0 sequenceIndex.

(** [for (let ring = NUM_RINGS; ring >= 1; ring--)]; returns the
    positions pushed and the value of the counter [sequenceIndex]. *)
Fixpoint ringsLoop (ring : nat) (sequenceIndex : Z)
  : list CirclePosition * Z :=
  match ring with
  | O => ([], sequenceIndex)
  | S ring' =>
      let rc := ringCircles (Z.of_nat ring) sequenceIndex in
      let '(rest, final) :=
        ringsLoop ring' (sequenceIndex + Z.of_nat (List.length rc)) in
      (rc ++ rest, final)
  end.

Definition centerCircle (sequenceIndex : Z) : CirclePosition :=
  {| x := CENTER; y := CENTER; ring := 0;
     sequenceIndex := sequenceIndex;
     anglePosition := 0; totalInRing := 1 |}.

Definition generateCirclePositions : list CirclePosition :=
  let '(positions, sequenceIndex) := ringsLoop NUM_RINGS 0 in
  positions ++ [centerCircle sequenceIndex].

End Layout.

(** Centre-to-centre distance of two dots. *)
Definition distance (a b : CirclePosition) : R :=
  sqrt ((x a - x b) * (x a - x b) + (y a - y b) * (y a - y b)).

(** ** getCircleColor *)

Definition ACTIVE_COLOR : string := "rgb(255, 255, 255)".
Definition INACTIVE_COLOR : string := "#1e1e1e".

Definition totalCirclesOf (positions : list CirclePosition) : Z :=
  Z.of_nat (List.length positions) - 1.

Definition totalCircles (s : Widget) : Z := totalCirclesOf (circlePositions s).

Definition percentageOf (currentTime : Z) : Q :=
  (inject_Z (currentTime - 1) / 59)%Q.

Definition activeCircleCount (totalCircles currentTime : Z) : Z :=
  Qceiling (percentageOf currentTime * inject_Z totalCircles).

Definition getCircleColor (hasStarted : bool) (totalCircles : Z)
    (circle : CirclePosition) (currentTime : Z) : string :=
  if negb hasStarted then ACTIVE_COLOR
  else if ring circle =? 0 then
    (if currentTime =? 0 then INACTIVE_COLOR else ACTIVE_COLOR)
  else if currentTime <=? 1 then INACTIVE_COLOR
  else
    if sequenceIndex circle >? totalCircles - activeCircleCount totalCircles currentTime
    then INACTIVE_COLOR
    else ACTIVE_COLOR.

(** [isActive] of the [circles] memo. *)
Definition isActive (hasStarted : bool) (totalCircles : Z)
    (circle : CirclePosition) (currentTime : Z) : bool :=
  String.eqb (getCircleColor hasStarted totalCircles circle currentTime)
             ACTIVE_COLOR.

Definition isCenter (circle : CirclePosition) : bool := ring circle =? 0.

(** Number of non-center dots of [positions] drawn active at [currentTime]. *)
Definition activeNonCenter (hasStarted : bool)
    (positions : list CirclePosition) (currentTime : Z) : Z :=
  Z.of_nat (List.length
    (filter (fun c => negb (isCenter c)
                      && isActive hasStarted (totalCirclesOf positions) c currentTime)
            positions)).

(** ** The host's animation-frame queue *)

Definition requestAnimationFrame (closure : bool) (s : Widget) : nat * Widget :=
  match s with
  | mkWidget tl run hs ps cl ref st pend nh =>
      (nh, mkWidget tl run hs ps cl ref st
             (pend ++ [mkFrameRequest nh closure]) (S nh))
  end.

Definition cancelAnimationFrame (h : nat) (s : Widget) : Widget :=
  match s with
  | mkWidget tl run hs ps cl ref st pend nh =>
      mkWidget tl run hs ps cl ref st
        (filter (fun f => negb (Nat.eqb (handle f) h)) pend) nh
  end.

(** The host takes the oldest requested frame off its queue. *)
Definition dequeueFrame (s : Widget) : option (FrameRequest * Widget) :=
  match s with
  | mkWidget tl run hs ps cl ref st pend nh =>
      match pend with
      | [] => None
      | f :: rest => Some (f, mkWidget tl run hs ps cl ref st rest nh)
      end
  end.

(** ** State and ref setters *)

Definition setTimeLeft (v : Z) (s : Widget) : Widget :=
  match s with
  | mkWidget _ run hs ps cl ref st pend nh =>
      mkWidget v run hs ps cl ref st pend nh
  end.

Definition setIsRunning (v : bool) (s : Widget) : Widget :=
  match s with
  | mkWidget tl _ hs ps cl ref st pend nh =>
      mkWidget tl v hs ps cl ref st pend nh
  end.

Definition setHasStarted (v : bool) (s : Widget) : Widget :=
  match s with
  | mkWidget tl run _ ps cl ref st pend nh =>
      mkWidget tl run v ps cl ref st pend nh
  end.

Definition setCirclePositions (v : list CirclePosition) (s : Widget) : Widget :=
  match s with
  | mkWidget tl run hs _ cl ref st pend nh =>
      mkWidget tl run hs v cl ref st pend nh
  end.

Definition setIsClient (v : bool) (s : Widget) : Widget :=
  match s with
  | mkWidget tl run hs ps _ ref st pend nh =>
      mkWidget tl run hs ps v ref st pend nh
  end.

Definition setAnimationFrameRef (v : option nat) (s : Widget) : Widget :=
  match s with
  | mkWidget tl run hs ps cl _ st pend nh =>
      mkWidget tl run hs ps cl v st pend nh
  end.

Definition setStartTimeRef (v : option Q) (s : Widget) : Widget :=
  match s with
  | mkWidget tl run hs ps cl ref _ pend nh =>
      mkWidget tl run hs ps cl ref v pend nh
  end.

(** [animationFrameRef.current = requestAnimationFrame(updateTimer)] *)
Definition scheduleUpdateTimer (closure : bool) (s : Widget) : Widget :=
  let '(h, s') := requestAnimationFrame closure s in
  setAnimationFrameRef (Some h) s'.

(** JavaScript truthiness of the two refs ([null] and [0] are falsy). *)
Definition truthyHandle (r : option nat) : option nat :=
  match r with
  | Some (S h) => Some (S h)
  | _ => None
  end.

Definition truthyTime (r : option Q) : option Q :=
  match r with
  | Some t => if Qeq_bool t 0 then None else Some t
  | None => None
  end.

(** ** updateTimer

    [closure] is the [isRunning] of the render whose effect created this
    callback. *)
Definition updateTimer (closure : bool) (timestamp : Q) (s : Widget) : Widget :=
  let start :=
    match truthyTime (startTimeRef s) with
    | Some t => t
    | None => timestamp
    end in
  let s1 := setStartTimeRef (Some start) s in
  let elapsedTime := Qfloor ((timestamp - start) / 1000) in
  let newTimeLeft := Z.max (60 - elapsedTime) 0 in
  let s2 := setTimeLeft newTimeLeft s1 in
  if (newTimeLeft >? 0) && closure then scheduleUpdateTimer closure s2
  else if newTimeLeft =? 0 then setStartTimeRef None (setIsRunning false s2)
  else s2.

(** ** The timer effect and its cleanup *)

Definition timerEffect (s : Widget) : Widget :=
  if isRunning s && (timeLeft s >? 0)
  then scheduleUpdateTimer (isRunning s) s
  else s.

Definition timerCleanup (s : Widget) : Widget :=
  match truthyHandle (animationFrameRef s) with
  | Some h => cancelAnimationFrame h s
  | None => s
  end.

Definition depsChanged (prev next : Widget) : bool :=
  negb (Bool.eqb (isRunning prev) (isRunning next))
  || negb (timeLeft prev =? timeLeft next).

(** Commit of a render: the effect is replayed when a dependency changed. *)
Definition commit (prev next : Widget) : Widget :=
  if depsChanged prev next then timerEffect (timerCleanup next) else next.

(** ** reset and toggleTimer *)

(** [reset] starts with the same guarded [cancelAnimationFrame] as the
    cleanup of the effect. *)
Definition reset (s : Widget) : Widget :=
  let s1 := timerCleanup s in
  let s2 := setStartTimeRef None s1 in
  setHasStarted false (setIsRunning false (setTimeLeft 60 s2)).

Definition toggleTimer (s : Widget) : Widget :=
  let s1 := if negb (hasStarted s) then setHasStarted true s else s in
  let s2 := if negb (isRunning s) && (timeLeft s =? 0)
            then setStartTimeRef None (setTimeLeft 60 s1)
            else s1 in
  setIsRunning (negb (isRunning s)) s2.

(** ** The widget as a transition system *)

Definition initial : Widget :=
  {| timeLeft := 60; isRunning := false; hasStarted := false;
     circlePositions := []; isClient := false;
     animationFrameRef := None; startTimeRef := None;
     pendingFrames := []; nextHandle := 1 |}.

(** State after the mount effects, for a layout [positions]. *)
Definition mountedWith (positions : list CirclePosition) : Widget :=
  timerEffect (setIsClient true (setCirclePositions positions initial)).

Definition mounted : Widget := mountedWith (generateCirclePositions 5).

Inductive Event : Type :=
| Toggle
| Reset
| Frame (timestamp : Q).

(** The host runs the oldest requested frame, if there is one. *)
Definition fireFrame (timestamp : Q) (s : Widget) : Widget :=
  match dequeueFrame s with
  | None => s
  | Some (f, s0) => commit s (updateTimer (closureIsRunning f) timestamp s0)
  end.

Definition step (e : Event) (s : Widget) : Widget :=
  match e with
  | Toggle => commit s (toggleTimer s)
  | Reset => commit s (reset s)
  | Frame timestamp => fireFrame timestamp s
  end.

Fixpoint run (events : list Event) (s : Widget) : Widget :=
  match events with
  | [] => s
  | e :: rest => run rest (step e s)
  end.

(** States reachable from the mounted widget; the index is the latest
    frame timestamp, and timestamps never decrease. *)
Inductive reachable : Q -> Widget -> Prop :=
| reach_mounted : forall positions, reachable 0 (mountedWith positions)
| reach_toggle : forall now s, reachable now s -> reachable now (step Toggle s)
| reach_reset : forall now s, reachable now s -> reachable now (step Reset s)
| reach_frame : forall now s timestamp,
    reachable now s -> (now <= timestamp)%Q ->
    reachable timestamp (step (Frame timestamp) s).

(** Ring and sequence index of a dot: all that [getCircleColor] reads. *)
Definition key (c : CirclePosition) : Z * Z := (ring c, sequenceIndex c).

Definition ofKey (k : Z * Z) : CirclePosition :=
  {| x := 0; y := 0; ring := fst k; sequenceIndex := snd k;
     anglePosition := 0; totalInRing := 0 |}.

Fixpoint ringKeys (ring : Z) (n : nat) (sequenceIndex : Z) : list (Z * Z) :=
  match n with
  | O => []
  | S n' => (ring, sequenceIndex) :: ringKeys ring n' (sequenceIndex + 1)
  end.

(** Rings and sequence indices of the layout for five rings. *)
Definition layoutKeys : list (Z * Z) :=
  ringKeys 5 37 0 ++ ringKeys 4 30 37 ++ ringKeys 3 22 67
  ++ ringKeys 2 15 89 ++ ringKeys 1 7 104 ++ [(0, 111)].

(** ** Invariant of the transition system *)

(** At most one frame is requested; it is the one [animationFrameRef]
    holds, its closure saw [isRunning = true], and it only exists while the
    timer runs with time left. *)
Definition queueOk (s : Widget) : Prop :=
  pendingFrames s = []
  \/ exists h, pendingFrames s = [mkFrameRequest (S h) true]
               /\ animationFrameRef s = Some (S h)
               /\ isRunning s = true /\ 0 < timeLeft s.

Definition Inv (now : Q) (s : Widget) : Prop :=
  0 <= timeLeft s <= 60
  /\ (timeLeft s = 0 -> isRunning s = false)
  /\ (forall t0, startTimeRef s = Some t0 -> (t0 <= now)%Q)
  /\ queueOk s
  /\ (1 <= nextHandle s)%nat.

(** The published invariant of the timer state. *)
Definition timeLeftOk (s : Widget) : Prop :=
  0 <= timeLeft s <= 60 /\ (timeLeft s = 0 -> isRunning s = false).

(** The widget once a run has completed: start, first frame at 1 s, next
    frame 60 s later. *)
Definition completedRun : list Event :=
  [Toggle; Frame 1000; Frame 61000].

(** Start, ten seconds of countdown, pause. *)
Definition runThenPause : list Event :=
  [Toggle; Frame 1000; Frame 11000; Toggle].

(** ... then resume, and the first frame five seconds after the pause. *)
Definition pauseThenResume : list Event :=
  runThenPause ++ [Toggle; Frame 16000].

(** A layout of 100 non-center dots and the center dot. *)
Definition hundredDots : list CirclePosition :=
  map ofKey (ringKeys 1 100 0 ++ [(0, 100)]).

(** Further facts kept by every transition: a running timer always has
    its frame requested; a widget that was not started is untouched; without
    a usable reference instant [timeLeft] is 60 or 0; with one, [timeLeft]
    is not below what the clock [now] gives. *)
Definition Inv2 (now : Q) (s : Widget) : Prop :=
  (isRunning s = true -> pendingFrames s <> [])
  /\ (hasStarted s = false ->
      timeLeft s = 60 /\ isRunning s = false /\ startTimeRef s = None)
  /\ (truthyTime (startTimeRef s) = None -> timeLeft s = 60 \/ timeLeft s = 0)
  /\ (forall t0, truthyTime (startTimeRef s) = Some t0 ->
        Z.max (60 - Qfloor ((now - t0) / 1000)) 0 <= timeLeft s).

(** * Properties *)

(** ** Real-number facts used by the layout *)

Section RealFacts.

Local Open Scope R_scope.

Lemma PI_bounds : 3141 / 1000 < PI < 3142 / 1000.
Proof.
  generalize (PI_2_3_7_ineq 2).
  unfold sum_f_R0, tg_alt, PI_2_3_7_tg, Ratan_seq; simpl.
  intros [Hlow Hup]; split; lra.
Qed.

(** On the first quarter turn the sine is above half of its argument. *)
Lemma sin_ge_half (a : R) : 0 <= a <= PI / 2 -> a / 2 <= sin a.
Proof.
  intros [H0 H1].
  pose proof PI_bounds as HP.
  assert (Ha : a <= 16 / 10) by lra.
  destruct (SIN a) as [Hl _]; try lra.
  unfold sin_lb, sin_approx, sum_f_R0, sin_term in Hl.
  cbn [pred Nat.mul Nat.add pow] in Hl.
  assert (E : forall n, INR (fact n) = IZR (Z.of_nat (fact n)))
    by (intros; apply INR_IZR_INZ).
  rewrite !E in Hl; cbn in Hl.
  eapply Rle_trans; [| exact Hl].
  assert (Hu : 0 <= a * a <= 256 / 100) by nra.
  assert (H4 : 0 <= (a * a) * (a * a)) by nra.
  assert (H6 : (a * a) * ((a * a) * (a * a))
               <= 256 / 100 * (256 / 100 * (256 / 100)))
    by (apply Rmult_le_compat; nra).
  assert (1 / 2 <= 1 - (a * a) / 6 + (a * a) * (a * a) / 120
                   - (a * a) * ((a * a) * (a * a)) / 5040) by lra.
  nra.
Qed.

(** Between [a] and [PI - a] the sine does not go below [sin a]. *)
Lemma sin_ge_on_arc (a t : R) :
  0 <= a <= PI / 2 -> a <= t <= PI - a -> sin a <= sin t.
Proof.
  intros [Ha0 Ha1] [Ht0 Ht1].
  destruct (Rle_dec t (PI / 2)) as [Hle | Hgt].
  - apply sin_incr_1; lra.
  - rewrite <- (sin_PI_x t). apply sin_incr_1; lra.
Qed.

(** Squared chord between two points of a circle. *)
Lemma chord_sqr (rho a b : R) :
  (rho * cos a - rho * cos b) * (rho * cos a - rho * cos b)
  + (rho * sin a - rho * sin b) * (rho * sin a - rho * sin b)
  = (2 * rho * sin ((a - b) / 2)) * (2 * rho * sin ((a - b) / 2)).
Proof.
  pose proof (sin2_cos2 a) as Ha. pose proof (sin2_cos2 b) as Hb.
  unfold Rsqr in Ha, Hb.
  pose proof (cos_minus a b) as Hm.
  pose proof (cos_2a_sin ((a - b) / 2)) as Hd.
  replace (2 * ((a - b) / 2)) with (a - b) in Hd by field.
  nra.
Qed.

End RealFacts.

(** ** The layout *)

Section ChordBound.

Local Open Scope R_scope.

(** Two slots [j < i] of a ring with [n] slots, where [n] is at most
    the circumference divided by twice the dot diameter [d], are at least
    [d] apart (as a chord). *)
Lemma chord_ge_diameter (rho d : R) (n i j : Z) :
  0 < d -> (0 <= j < i)%Z -> (i < n)%Z ->
  IZR n <= 2 * PI * rho / (d * 2) ->
  d <= 2 * rho *
       sin ((IZR i * (2 * PI / IZR n) - IZR j * (2 * PI / IZR n)) / 2).
Proof.
  intros Hd [Hj Hji] Hin Hn.
  pose proof PI_bounds as HP.
  assert (Hn2 : 2 <= IZR n) by (apply IZR_le; lia).
  assert (Hk1 : 1 <= IZR i - IZR j)
    by (rewrite <- minus_IZR; apply IZR_le; lia).
  assert (Hk2 : IZR i - IZR j <= IZR n - 1)
    by (rewrite <- !minus_IZR; apply IZR_le; lia).
  set (a := PI / IZR n).
  assert (Hna : IZR n * a = PI) by (unfold a; field; lra).
  assert (Ha0 : 0 < a) by (unfold a; apply Rdiv_lt_0_compat; lra).
  assert (Ha1 : a <= PI / 2) by nra.
  replace ((IZR i * (2 * PI / IZR n) - IZR j * (2 * PI / IZR n)) / 2)
    with ((IZR i - IZR j) * a) by (unfold a; field; lra).
  assert (Harc : sin a <= sin ((IZR i - IZR j) * a))
    by (apply sin_ge_on_arc; split; nra).
  assert (Hhalf : a / 2 <= sin a) by (apply sin_ge_half; lra).
  assert (Hnd : IZR n * d <= PI * rho).
  { apply (Rmult_le_compat_r d) in Hn; [| lra].
    replace (2 * PI * rho / (d * 2) * d) with (PI * rho) in Hn
      by (field; lra).
    exact Hn. }
  assert (Hrho : 0 < rho) by nra.
  assert (Hda : d <= rho * a).
  { apply (Rmult_le_reg_l (IZR n)); [lra |].
    replace (IZR n * (rho * a)) with (rho * (IZR n * a)) by ring.
    rewrite Hna. lra. }
  nra.
Qed.

Lemma distance_sym (a b : CirclePosition) : distance a b = distance b a.
Proof. unfold distance; f_equal; ring. Qed.

Lemma circleAt_distance (N : nat) (r i j q1 q2 : Z) :
  (0 <= j < i)%Z -> (i < numCircles N r)%Z ->
  CIRCLE_SIZE <= distance (circleAt N r i q1) (circleAt N r j q2).
Proof.
  intros Hji Hin.
  assert (Hfl := Zfloor_bound (circumference N r / (CIRCLE_SIZE * 2))).
  fold (numCircles N r) in Hfl. destruct Hfl as [Hfl _].
  unfold circumference in Hfl.
  assert (Hd : 0 < CIRCLE_SIZE) by (unfold CIRCLE_SIZE; lra).
  pose proof (chord_ge_diameter (ringRadius N r) CIRCLE_SIZE
                (numCircles N r) i j Hd Hji Hin Hfl) as Hc.
  unfold distance, circleAt; cbn [x y].
  match goal with
  | |- _ <= sqrt ?e =>
      replace e with
        ((ringRadius N r * cos (angle N r i) - ringRadius N r * cos (angle N r j))
         * (ringRadius N r * cos (angle N r i) - ringRadius N r * cos (angle N r j))
         + (ringRadius N r * sin (angle N r i) - ringRadius N r * sin (angle N r j))
           * (ringRadius N r * sin (angle N r i) - ringRadius N r * sin (angle N r j)))
        by ring
  end.
  rewrite chord_sqr.
  unfold angle, ringAngleStep.
  rewrite sqrt_square by lra.
  exact Hc.
Qed.

End ChordBound.

Lemma ringLoop_In (N : nat) (r : Z) (n : nat) (i q : Z) (c : CirclePosition) :
  In c (ringLoop N r n i q) ->
  exists k, 0 <= k < Z.of_nat n /\ c = circleAt N r (i + k) (q + k).
Proof.
  revert i q; induction n as [| n IH]; intros i q Hin; [destruct Hin |].
  cbn [ringLoop] in Hin. destruct Hin as [<- | Hin].
  - exists 0. rewrite !Z.add_0_r. split; [lia | reflexivity].
  - destruct (IH _ _ Hin) as (k & Hk & ->).
    exists (k + 1). split; [lia |].
    f_equal; lia.
Qed.

Lemma ringLoop_length (N : nat) (r : Z) (n : nat) (i q : Z) :
  List.length (ringLoop N r n i q) = n.
Proof.
  revert i q; induction n as [| n IH]; intros; cbn [ringLoop List.length];
    [reflexivity | now rewrite IH].
Qed.

Lemma ringLoop_keys (N : nat) (r : Z) (n : nat) (i q : Z) :
  map key (ringLoop N r n i q) = ringKeys r n q.
Proof.
  revert i q; induction n as [| n IH]; intros; cbn [ringLoop ringKeys map];
    [reflexivity | now rewrite IH].
Qed.

Lemma ringCircles_In (N : nat) (r q : Z) (c : CirclePosition) :
  In c (ringCircles N r q) ->
  exists i, 0 <= i < numCircles N r /\ c = circleAt N r i (q + i).
Proof.
  unfold ringCircles; intros Hin.
  destruct (ringLoop_In _ _ _ _ _ _ Hin) as (k & Hk & ->).
  exists k. split; [lia | reflexivity].
Qed.

(** Every dot pushed by the outer loop sits on a ring between 1 and the
    loop's first ring. *)
Lemma ringsLoop_ring (N m : nat) (q : Z) (c : CirclePosition) :
  In c (fst (ringsLoop N m q)) -> 1 <= ring c <= Z.of_nat m.
Proof.
  revert q; induction m as [| m IH]; intros q Hin; [destruct Hin |].
  cbn [ringsLoop] in Hin.
  destruct (ringsLoop N m _) as [rest final] eqn:E.
  cbn [fst] in Hin. apply in_app_or in Hin. destruct Hin as [Hin | Hin].
  - destruct (ringCircles_In _ _ _ _ Hin) as (i & _ & ->).
    cbn [circleAt ring]. lia.
  - specialize (IH (q + Z.of_nat (List.length (ringCircles N (Z.of_nat (S m)) q))) ).
    rewrite E in IH. specialize (IH Hin). lia.
Qed.

(** Two different dots of one ring are at least a dot diameter apart. *)
Lemma ringsLoop_distance (N m : nat) (q : Z) (c1 c2 : CirclePosition) :
  In c1 (fst (ringsLoop N m q)) -> In c2 (fst (ringsLoop N m q)) ->
  ring c1 = ring c2 -> c1 <> c2 ->
  (CIRCLE_SIZE <= distance c1 c2)%R.
Proof.
  revert q; induction m as [| m IH]; intros q H1 H2 Hr Hne; [destruct H1 |].
  pose proof (ringsLoop_ring N m
    (q + Z.of_nat (List.length (ringCircles N (Z.of_nat (S m)) q)))) as Hrest.
  specialize (IH (q + Z.of_nat (List.length (ringCircles N (Z.of_nat (S m)) q)))).
  cbn [ringsLoop] in H1, H2.
  destruct (ringsLoop N m _) as [rest final] eqn:E.
  cbn [fst] in *.
  apply in_app_or in H1; apply in_app_or in H2.
  destruct H1 as [H1 | H1], H2 as [H2 | H2].
  - destruct (ringCircles_In _ _ _ _ H1) as (i & Hi & ->).
    destruct (ringCircles_In _ _ _ _ H2) as (j & Hj & ->).
    destruct (Z.lt_trichotomy i j) as [Hlt | [Heq | Hgt]].
    + rewrite distance_sym. apply circleAt_distance; lia.
    + subst j. now elim Hne.
    + apply circleAt_distance; lia.
  - destruct (ringCircles_In _ _ _ _ H1) as (i & Hi & ->).
    apply Hrest in H2. cbn [circleAt ring] in Hr. lia.
  - destruct (ringCircles_In _ _ _ _ H2) as (j & Hj & ->).
    apply Hrest in H1. cbn [circleAt ring] in Hr. lia.
  - now apply IH.
Qed.

(** Dots per ring of the five-ring layout, outer to inner. *)
Lemma numCircles_5 :
  numCircles 5 5 = 37 /\ numCircles 5 4 = 30 /\ numCircles 5 3 = 22
  /\ numCircles 5 2 = 15 /\ numCircles 5 1 = 7.
Proof.
  pose proof PI_bounds as HP.
  unfold numCircles, circumference, ringRadius, SPACING, RADIUS, CIRCLE_SIZE.
  rewrite INR_IZR_INZ; cbn [Z.of_nat Pos.of_succ_nat Pos.succ].
  repeat split; apply Zfloor_eq; lra.
Qed.

Lemma generateCirclePositions_5 :
  generateCirclePositions 5
  = ringLoop 5 5 37 0 0 ++ ringLoop 5 4 30 0 37 ++ ringLoop 5 3 22 0 67
    ++ ringLoop 5 2 15 0 89 ++ ringLoop 5 1 7 0 104 ++ [centerCircle 111].
Proof.
  destruct numCircles_5 as (H5 & H4 & H3 & H2 & H1).
  unfold generateCirclePositions.
  cbn [ringsLoop Z.of_nat Pos.of_succ_nat Pos.succ].
  unfold ringCircles.
  rewrite H5; change (Z.to_nat 37) with 37%nat; rewrite ringLoop_length.
  change (0 + Z.of_nat 37) with 37.
  rewrite H4; change (Z.to_nat 30) with 30%nat; rewrite ringLoop_length.
  change (37 + Z.of_nat 30) with 67.
  rewrite H3; change (Z.to_nat 22) with 22%nat; rewrite ringLoop_length.
  change (67 + Z.of_nat 22) with 89.
  rewrite H2; change (Z.to_nat 15) with 15%nat; rewrite ringLoop_length.
  change (89 + Z.of_nat 15) with 104.
  rewrite H1; change (Z.to_nat 7) with 7%nat; rewrite ringLoop_length.
  change (104 + Z.of_nat 7) with 111.
  rewrite app_nil_r, <- !app_assoc. reflexivity.
Qed.

Lemma generateCirclePositions_5_keys :
  map key (generateCirclePositions 5) = layoutKeys.
Proof.
  rewrite generateCirclePositions_5, !map_app, !ringLoop_keys. reflexivity.
Qed.

Lemma generateCirclePositions_5_length :
  List.length (generateCirclePositions 5) = 112%nat.
Proof.
  rewrite <- (length_map key), generateCirclePositions_5_keys. reflexivity.
Qed.

Lemma totalCircles_mounted : totalCircles mounted = 111.
Proof.
  unfold totalCircles, totalCirclesOf, mounted, mountedWith.
  cbn [timerEffect initial setIsClient setCirclePositions isRunning andb
       circlePositions].
  rewrite generateCirclePositions_5_length. reflexivity.
Qed.

(** ** getCircleColor *)

Lemma activeCircleCount_div (T t : Z) :
  activeCircleCount T t = - ((- ((t - 1) * T)) / 59).
Proof.
  unfold activeCircleCount, percentageOf, Qceiling, Qfloor.
  cbn [Qmult Qdiv Qinv Qopp inject_Z Qnum Qden Pos.mul].
  rewrite Z.mul_1_r. reflexivity.
Qed.

(** [activeCircleCount] is the least integer not below [(t-1)*T/59]. *)
Lemma activeCircleCount_bounds (T t : Z) :
  59 * (activeCircleCount T t - 1) < (t - 1) * T <= 59 * activeCircleCount T t.
Proof.
  rewrite activeCircleCount_div.
  pose proof (Z.div_mod (- ((t - 1) * T)) 59 ltac:(lia)) as Hdm.
  pose proof (Z.mod_pos_bound (- ((t - 1) * T)) 59 ltac:(lia)) as Hmod.
  lia.
Qed.

Lemma activeCircleCount_mono (T t t' : Z) :
  0 <= T -> t' <= t -> activeCircleCount T t' <= activeCircleCount T t.
Proof.
  intros HT Hle.
  pose proof (activeCircleCount_bounds T t) as Hb.
  pose proof (activeCircleCount_bounds T t') as Hb'.
  assert ((t' - 1) * T <= (t - 1) * T) by nia.
  lia.
Qed.

Lemma activeCircleCount_range (T t : Z) :
  0 <= T -> 1 <= t <= 60 -> 0 <= activeCircleCount T t <= T.
Proof.
  intros HT Ht.
  pose proof (activeCircleCount_bounds T t) as Hb.
  assert (0 <= (t - 1) * T <= 59 * T) by nia.
  lia.
Qed.

(** The only two colors. *)
Lemma getCircleColor_two_colors hs T c t :
  getCircleColor hs T c t = ACTIVE_COLOR
  \/ getCircleColor hs T c t = INACTIVE_COLOR.
Proof.
  unfold getCircleColor.
  repeat match goal with
         | |- context [if ?b then _ else _] => destruct b
         end; auto.
Qed.

Lemma isActive_false_iff hs T c t :
  isActive hs T c t = false <-> getCircleColor hs T c t = INACTIVE_COLOR.
Proof.
  unfold isActive.
  destruct (getCircleColor_two_colors hs T c t) as [-> | ->];
    split; intro H; try reflexivity; discriminate H.
Qed.

Lemma isActive_true_iff hs T c t :
  isActive hs T c t = true <-> getCircleColor hs T c t = ACTIVE_COLOR.
Proof. unfold isActive. apply String.eqb_eq. Qed.

(** The color only depends on the ring and the sequence index. *)
Lemma getCircleColor_key hs T c t :
  getCircleColor hs T c t = getCircleColor hs T (ofKey (key c)) t.
Proof. reflexivity. Qed.

Lemma isActive_never_started T c t : isActive false T c t = true.
Proof. reflexivity. Qed.

Lemma isActive_center T c t :
  ring c = 0 -> isActive true T c t = negb (t =? 0).
Proof.
  intros Hr. unfold isActive, getCircleColor. rewrite Hr. cbn [negb Z.eqb].
  destruct (t =? 0); reflexivity.
Qed.

Lemma isActive_last_second T c t :
  ring c <> 0 -> t <= 1 -> isActive true T c t = false.
Proof.
  intros Hr Ht. unfold isActive, getCircleColor. cbn [negb].
  destruct (Z.eqb_spec (ring c) 0) as [E | _]; [contradiction |].
  destruct (Z.leb_spec t 1); [reflexivity | lia].
Qed.

Lemma isActive_noncenter T c t :
  ring c <> 0 -> 2 <= t ->
  isActive true T c t = (sequenceIndex c <=? T - activeCircleCount T t).
Proof.
  intros Hr Ht. unfold isActive, getCircleColor. cbn [negb].
  destruct (Z.eqb_spec (ring c) 0) as [E | _]; [contradiction |].
  destruct (Z.leb_spec t 1); [lia |].
  rewrite Z.gtb_ltb.
  destruct (Z.ltb_spec (T - activeCircleCount T t) (sequenceIndex c));
    destruct (Z.leb_spec (sequenceIndex c) (T - activeCircleCount T t));
    try reflexivity; lia.
Qed.

Lemma filter_key_length (p : CirclePosition -> bool) (p' : Z * Z -> bool)
    (l : list CirclePosition) :
  (forall c, p c = p' (key c)) ->
  List.length (filter p l) = List.length (filter p' (map key l)).
Proof.
  intros Hp. induction l as [| c l IH]; [reflexivity |].
  cbn [filter map]. rewrite <- Hp.
  destruct (p c); cbn [List.length]; now rewrite IH.
Qed.

(** Counting active non-center dots only needs the keys of the layout. *)
Lemma activeNonCenter_keys hs positions t :
  activeNonCenter hs positions t
  = Z.of_nat (List.length
      (filter (fun k => negb (fst k =? 0)
                        && isActive hs (totalCirclesOf positions) (ofKey k) t)
              (map key positions))).
Proof.
  unfold activeNonCenter. f_equal.
  apply filter_key_length. intros c. reflexivity.
Qed.

Lemma mounted_positions : circlePositions mounted = generateCirclePositions 5.
Proof. reflexivity. Qed.

Lemma In_layout_key (r q : Z) :
  In (r, q) layoutKeys ->
  exists c, In c (circlePositions mounted) /\ ring c = r /\ sequenceIndex c = q.
Proof.
  rewrite mounted_positions, <- generateCirclePositions_5_keys.
  intros Hin. apply in_map_iff in Hin. destruct Hin as (c & Hk & Hin).
  exists c. unfold key in Hk. inversion Hk. auto.
Qed.

(** ** The countdown controller *)

Lemma Qfloor_elapsed_nonneg (start timestamp : Q) :
  (start <= timestamp)%Q -> 0 <= Qfloor ((timestamp - start) / 1000).
Proof.
  intros Hle.
  change 0 with (Qfloor 0).
  apply Qfloor_resp_le.
  apply Qle_shift_div_l; [reflexivity | lra].
Qed.

(** What [updateTimer] stores in [timeLeft]. *)
Lemma updateTimer_timeLeft closure timestamp s :
  timeLeft (updateTimer closure timestamp s)
  = Z.max (60 - Qfloor ((timestamp
                         - match truthyTime (startTimeRef s) with
                           | Some t => t
                           | None => timestamp
                           end) / 1000)) 0.
Proof.
  destruct s as [tl run hs ps cl ref st pend nh].
  unfold updateTimer.
  repeat match goal with
         | |- context [if ?b then _ else _] => destruct b
         end; reflexivity.
Qed.

Lemma truthyTime_Some r t : truthyTime r = Some t -> r = Some t.
Proof.
  unfold truthyTime. destruct r as [t0 |]; [| discriminate].
  destruct (Qeq_bool t0 0); [discriminate | congruence].
Qed.

Lemma updateTimer_frame closure timestamp s :
  hasStarted (updateTimer closure timestamp s) = hasStarted s
  /\ circlePositions (updateTimer closure timestamp s) = circlePositions s
  /\ isClient (updateTimer closure timestamp s) = isClient s.
Proof.
  destruct s as [tl run hs ps cl ref st pend nh].
  unfold updateTimer.
  repeat match goal with
         | |- context [if ?b then _ else _] => destruct b
         end; repeat split.
Qed.

Lemma commit_frame prev next :
  hasStarted (commit prev next) = hasStarted next
  /\ circlePositions (commit prev next) = circlePositions next
  /\ isClient (commit prev next) = isClient next.
Proof.
  destruct next as [tl run hs ps cl ref st pend nh].
  unfold commit, timerEffect, timerCleanup.
  destruct (depsChanged prev _); [| repeat split].
  destruct (truthyHandle _);
    cbn [cancelAnimationFrame isRunning timeLeft];
    match goal with
    | |- context [if ?b then _ else _] => destruct b
    end; repeat split.
Qed.

Ltac widget_fields :=
  cbn [timeLeft isRunning startTimeRef pendingFrames nextHandle
       animationFrameRef hasStarted circlePositions isClient closureIsRunning].

(** *** The handlers on an explicit state *)

Lemma toggleTimer_eq tl run hs ps cl ref st pend nh :
  toggleTimer (mkWidget tl run hs ps cl ref st pend nh)
  = mkWidget (if negb run && (tl =? 0) then 60 else tl) (negb run) true
             ps cl ref (if negb run && (tl =? 0) then None else st) pend nh.
Proof.
  unfold toggleTimer; widget_fields.
  destruct hs, run, (tl =? 0); reflexivity.
Qed.

Lemma timerEffect_eq tl run hs ps cl ref st pend nh :
  timerEffect (mkWidget tl run hs ps cl ref st pend nh)
  = if run && (tl >? 0)
    then mkWidget tl run hs ps cl (Some nh) st
           (pend ++ [mkFrameRequest nh run]) (S nh)
    else mkWidget tl run hs ps cl ref st pend nh.
Proof.
  unfold timerEffect; widget_fields.
  destruct (run && (tl >? 0)); reflexivity.
Qed.

Lemma timerCleanup_eq tl run hs ps cl ref st pend nh :
  (pend = [] \/ exists h c, pend = [mkFrameRequest (S h) c] /\ ref = Some (S h)) ->
  timerCleanup (mkWidget tl run hs ps cl ref st pend nh)
  = mkWidget tl run hs ps cl ref st [] nh.
Proof.
  unfold timerCleanup; widget_fields.
  intros [-> | (h & c & -> & ->)].
  - destruct ref as [[| h] |]; reflexivity.
  - cbn [truthyHandle cancelAnimationFrame filter handle].
    rewrite Nat.eqb_refl. reflexivity.
Qed.

Lemma updateTimer_eq closure timestamp tl run hs ps cl ref st pend nh :
  updateTimer closure timestamp (mkWidget tl run hs ps cl ref st pend nh)
  = let start := match truthyTime st with Some t => t | None => timestamp end in
    let newTimeLeft := Z.max (60 - Qfloor ((timestamp - start) / 1000)) 0 in
    if (newTimeLeft >? 0) && closure
    then mkWidget newTimeLeft run hs ps cl (Some nh) (Some start)
           (pend ++ [mkFrameRequest nh closure]) (S nh)
    else if newTimeLeft =? 0
         then mkWidget newTimeLeft false hs ps cl ref None pend nh
         else mkWidget newTimeLeft run hs ps cl ref (Some start) pend nh.
Proof.
  unfold updateTimer; widget_fields. cbv zeta.
  repeat match goal with
         | |- context [if ?b then _ else _] => destruct b
         end; reflexivity.
Qed.

Lemma commit_changed prev next :
  depsChanged prev next = true ->
  commit prev next = timerEffect (timerCleanup next).
Proof. unfold commit; now intros ->. Qed.

Lemma commit_unchanged prev next :
  depsChanged prev next = false -> commit prev next = next.
Proof. unfold commit; now intros ->. Qed.

Lemma depsChanged_false_iff prev next :
  depsChanged prev next = false
  <-> isRunning prev = isRunning next /\ timeLeft prev = timeLeft next.
Proof.
  unfold depsChanged. rewrite orb_false_iff, !negb_false_iff.
  rewrite Bool.eqb_true_iff, Z.eqb_eq. reflexivity.
Qed.

(** A toggle always changes [isRunning], so the effect is replayed. *)
Lemma step_Toggle_eq tl run hs ps cl ref st pend nh :
  (pend = [] \/ exists h c, pend = [mkFrameRequest (S h) c] /\ ref = Some (S h)) ->
  step Toggle (mkWidget tl run hs ps cl ref st pend nh)
  = timerEffect
      (mkWidget (if negb run && (tl =? 0) then 60 else tl) (negb run) true
                ps cl ref (if negb run && (tl =? 0) then None else st) [] nh).
Proof.
  intros Hq. unfold step. rewrite toggleTimer_eq, commit_changed.
  - now rewrite timerCleanup_eq.
  - unfold depsChanged; widget_fields. destruct run; reflexivity.
Qed.

Lemma queueOk_weaken tl run hs ps cl ref st pend nh :
  queueOk (mkWidget tl run hs ps cl ref st pend nh) ->
  pend = [] \/ exists h c, pend = [mkFrameRequest (S h) c] /\ ref = Some (S h).
Proof.
  unfold queueOk; widget_fields.
  intros [-> | (h & -> & -> & _)]; [now left | right; eauto].
Qed.

Lemma Inv_mounted positions : Inv 0 (mountedWith positions).
Proof.
  unfold Inv, queueOk, mountedWith; cbn.
  repeat split; try lia; try discriminate; auto.
Qed.

Lemma Inv_toggle now s : Inv now s -> Inv now (step Toggle s).
Proof.
  destruct s as [tl run hs ps cl ref st pend nh].
  intros (Htl & Hz & Hst & Hq & Hnh).
  pose proof (queueOk_weaken _ _ _ _ _ _ _ _ _ Hq) as Hw.
  revert Htl Hz Hst Hnh; widget_fields; intros Htl Hz Hst Hnh.
  rewrite (step_Toggle_eq _ _ _ _ _ _ _ _ _ Hw), timerEffect_eq.
  destruct nh as [| nh]; [lia |].
  unfold Inv, queueOk.
  destruct run; cbn [negb andb].
  - widget_fields. repeat split; try lia; auto.
  - destruct (Z.eqb_spec tl 0) as [E | E]; cbn [Z.gtb Z.compare].
    + widget_fields. repeat split; try lia; try discriminate.
      right. exists nh. repeat split; lia.
    + destruct (Z.gtb_spec tl 0); try lia. widget_fields.
      repeat split; try lia; auto.
      right. exists nh. repeat split; lia.
Qed.

Lemma reset_eq tl run hs ps cl ref st pend nh :
  (pend = [] \/ exists h c, pend = [mkFrameRequest (S h) c] /\ ref = Some (S h)) ->
  reset (mkWidget tl run hs ps cl ref st pend nh)
  = mkWidget 60 false false ps cl ref None [] nh.
Proof.
  intros Hq. unfold reset. now rewrite timerCleanup_eq.
Qed.

(** After [reset] and the commit that follows, the state is the initial
    one up to the layout, the stale handle and the handle counter. *)
Lemma step_Reset_eq tl run hs ps cl ref st pend nh :
  (pend = [] \/ exists h c, pend = [mkFrameRequest (S h) c] /\ ref = Some (S h)) ->
  step Reset (mkWidget tl run hs ps cl ref st pend nh)
  = mkWidget 60 false false ps cl ref None [] nh.
Proof.
  intros Hq. unfold step. rewrite (reset_eq _ _ _ _ _ _ _ _ _ Hq).
  unfold commit. destruct (depsChanged _ _); [| reflexivity].
  rewrite timerCleanup_eq by now left.
  now rewrite timerEffect_eq.
Qed.

Lemma Inv_reset now s : Inv now s -> Inv now (step Reset s).
Proof.
  destruct s as [tl run hs ps cl ref st pend nh].
  intros (Htl & Hz & Hst & Hq & Hnh).
  pose proof (queueOk_weaken _ _ _ _ _ _ _ _ _ Hq) as Hw.
  rewrite (step_Reset_eq _ _ _ _ _ _ _ _ _ Hw).
  revert Hnh; unfold Inv, queueOk; widget_fields; intros Hnh.
  repeat split; try lia; try discriminate; auto.
Qed.

Lemma reference_le now timestamp st :
  (forall t0, st = Some t0 -> (t0 <= now)%Q) -> (now <= timestamp)%Q ->
  (match truthyTime st with Some t => t | None => timestamp end <= timestamp)%Q.
Proof.
  intros Hst Hle. destruct (truthyTime st) as [t |] eqn:E.
  - apply truthyTime_Some in E. apply Qle_trans with now; auto.
  - apply Qle_refl.
Qed.

Lemma fireFrame_none tl run hs ps cl ref st nh timestamp :
  step (Frame timestamp) (mkWidget tl run hs ps cl ref st [] nh)
  = mkWidget tl run hs ps cl ref st [] nh.
Proof. reflexivity. Qed.

Lemma fireFrame_one tl run hs ps cl ref st f nh timestamp :
  step (Frame timestamp) (mkWidget tl run hs ps cl ref st [f] nh)
  = commit (mkWidget tl run hs ps cl ref st [f] nh)
      (updateTimer (closureIsRunning f) timestamp
         (mkWidget tl run hs ps cl ref st [] nh)).
Proof. reflexivity. Qed.

Lemma Inv_frame now timestamp s :
  Inv now s -> (now <= timestamp)%Q -> Inv timestamp (step (Frame timestamp) s).
Proof.
  destruct s as [tl run hs ps cl ref st pend nh].
  intros (Htl & Hz & Hst & Hq & Hnh) Hle.
  revert Htl Hz Hst Hq Hnh; unfold queueOk; widget_fields.
  intros Htl Hz Hst Hq Hnh.
  pose proof (reference_le now timestamp st Hst Hle) as Hstart.
  pose proof (Qfloor_elapsed_nonneg _ _ Hstart) as He.
  destruct nh as [| nh]; [lia |].
  destruct Hq as [-> | (h & -> & -> & -> & Hpos)].
  - rewrite fireFrame_none. unfold Inv, queueOk; widget_fields.
    repeat split; try lia; auto.
    intros t0 E. apply Qle_trans with now; auto.
  - rewrite fireFrame_one, updateTimer_eq. cbv zeta. widget_fields.
    set (start := match truthyTime st with Some t => t | None => timestamp end) in *.
    set (e := Qfloor ((timestamp - start) / 1000)) in *.
    clearbody e. rewrite andb_true_r.
    destruct (Z.gtb_spec (Z.max (60 - e) 0) 0) as [Hgt | Hgt].
    + destruct (Z.eq_dec tl (Z.max (60 - e) 0)) as [E | E].
      * rewrite commit_unchanged
          by (apply depsChanged_false_iff; widget_fields; auto).
        unfold Inv, queueOk; widget_fields.
        repeat split; try lia; auto.
        -- intros ? [= <-]; exact Hstart.
        -- right. exists nh. repeat split; lia.
      * rewrite commit_changed.
        2:{ unfold depsChanged; widget_fields.
            destruct (Z.eqb_spec tl (Z.max (60 - e) 0)); [contradiction |].
            reflexivity. }
        rewrite timerCleanup_eq by (right; exists nh, true; auto).
        rewrite timerEffect_eq. cbn [andb].
        destruct (Z.gtb_spec (Z.max (60 - e) 0) 0); [| lia].
        unfold Inv, queueOk; widget_fields.
        repeat split; try lia; auto.
        -- intros ? [= <-]; exact Hstart.
        -- right. exists (S nh). repeat split; lia.
    + assert (E0 : Z.max (60 - e) 0 = 0) by lia. rewrite E0. cbn [Z.eqb].
      rewrite commit_changed by reflexivity.
      rewrite timerCleanup_eq by (left; reflexivity).
      rewrite timerEffect_eq. cbn [andb].
      unfold Inv, queueOk; widget_fields.
      repeat split; try lia; try discriminate; auto.
Qed.

Lemma reachable_Inv now s : reachable now s -> Inv now s.
Proof.
  induction 1 as [positions | now s _ IH | now s _ IH | now s ts _ IH Hle].
  - apply Inv_mounted.
  - now apply Inv_toggle.
  - now apply Inv_reset.
  - now apply (Inv_frame now).
Qed.

Lemma timerCleanup_shape tl run hs ps cl ref st pend nh :
  exists pend',
    timerCleanup (mkWidget tl run hs ps cl ref st pend nh)
    = mkWidget tl run hs ps cl ref st pend' nh.
Proof.
  unfold timerCleanup; widget_fields.
  destruct (truthyHandle ref) as [h |]; cbn [cancelAnimationFrame]; eauto.
Qed.

Lemma Qfloor_no_elapsed (timestamp : Q) :
  Qfloor ((timestamp - timestamp) / 1000) = 0.
Proof.
  assert (E : ((timestamp - timestamp) / 1000 == 0)%Q) by field.
  rewrite E. reflexivity.
Qed.

Lemma dequeueFrame_frame s f s0 :
  dequeueFrame s = Some (f, s0) ->
  hasStarted s0 = hasStarted s /\ circlePositions s0 = circlePositions s
  /\ isClient s0 = isClient s.
Proof.
  destruct s as [tl run hs ps cl ref st pend nh]; unfold dequeueFrame.
  destruct pend as [| f' rest]; [discriminate |].
  intros [= <- <-]. repeat split.
Qed.

(** A frame that finds no reference instant takes its own timestamp as
    the reference and shows the full 60 seconds. *)
Lemma frame_without_reference timestamp run hs ps cl ref f rest nh :
  let s' := step (Frame timestamp)
              (mkWidget 60 run hs ps cl ref None (f :: rest) nh) in
  timeLeft s' = 60 /\ isRunning s' = run /\ startTimeRef s' = Some timestamp.
Proof.
  unfold step, fireFrame, dequeueFrame.
  rewrite updateTimer_eq; cbv zeta; cbn [truthyTime].
  rewrite Qfloor_no_elapsed; change (Z.max (60 - 0) 0) with 60.
  cbn [Z.gtb Z.eqb Z.compare andb]; destruct (closureIsRunning f);
    rewrite commit_unchanged
      by (apply depsChanged_false_iff; split; reflexivity);
    repeat split.
Qed.

(** ** Claims about the countdown controller *)

(** C1, evaluated on the code.  Start; the first frame at 1 s fixes the
    reference instant; at 11 s [timeLeft] is 50; the user pauses.  The pause
    keeps the reference instant (1 s), and after the resume the first frame,
    at 16 s, computes the elapsed time from that old instant: [timeLeft]
    becomes 45, not the 50 shown when the timer was paused. *)
Theorem pause_resume_counts_paused_time :
  timeLeft (run runThenPause mounted) = 50
  /\ isRunning (run runThenPause mounted) = false
  /\ pendingFrames (run runThenPause mounted) = []
  /\ startTimeRef (run runThenPause mounted) = Some 1000%Q
  /\ timeLeft (run (runThenPause ++ [Toggle]) mounted) = 50
  /\ timeLeft (run pauseThenResume mounted) = 45.
Proof. repeat split; reflexivity. Qed.

(** C6: a toggle in a completed state ([timeLeft = 0], not running) sets
    [timeLeft] to 60, sets [isRunning], clears the reference instant and
    requests a frame; whatever its timestamp, that next frame takes it as
    the new reference instant and leaves [timeLeft] at 60. *)
Theorem toggle_after_completion (s : Widget) :
  timeLeft s = 0 -> isRunning s = false ->
  timeLeft (step Toggle s) = 60
  /\ isRunning (step Toggle s) = true
  /\ startTimeRef (step Toggle s) = None
  /\ pendingFrames (step Toggle s) <> []
  /\ forall timestamp,
       timeLeft (step (Frame timestamp) (step Toggle s)) = 60
       /\ isRunning (step (Frame timestamp) (step Toggle s)) = true
       /\ startTimeRef (step (Frame timestamp) (step Toggle s)) = Some timestamp.
Proof.
  destruct s as [tl run hs ps cl ref st pend nh]; widget_fields.
  intros -> ->.
  assert (E : exists pend',
             step Toggle (mkWidget 0 false hs ps cl ref st pend nh)
             = mkWidget 60 true true ps cl (Some nh) None
                 (pend' ++ [mkFrameRequest nh true]) (S nh)).
  { unfold step. rewrite toggleTimer_eq; cbn [negb andb Z.eqb].
    rewrite commit_changed by reflexivity.
    destruct (timerCleanup_shape 60 true true ps cl ref None pend nh)
      as (pend' & ->).
    rewrite timerEffect_eq. exists pend'. reflexivity. }
  destruct E as (pend' & ->); widget_fields.
  repeat split; try reflexivity.
  - destruct pend'; discriminate.
  - destruct pend' as [| f rest]; apply frame_without_reference.
  - destruct pend' as [| f rest]; apply frame_without_reference.
  - destruct pend' as [| f rest]; apply frame_without_reference.
Qed.

Lemma toggle_after_completion_witness :
  timeLeft (step Toggle (run completedRun mounted)) = 60
  /\ isRunning (step Toggle (run completedRun mounted)) = true
  /\ startTimeRef (step Toggle (run completedRun mounted)) = None
  /\ pendingFrames (step Toggle (run completedRun mounted)) <> []
  /\ forall timestamp,
       timeLeft (step (Frame timestamp) (step Toggle (run completedRun mounted))) = 60
       /\ isRunning (step (Frame timestamp) (step Toggle (run completedRun mounted))) = true
       /\ startTimeRef (step (Frame timestamp) (step Toggle (run completedRun mounted)))
          = Some timestamp.
Proof.
  apply (toggle_after_completion (run completedRun mounted)); reflexivity.
Defined.

(** C7: from every reachable state [reset] (with the commit that follows)
    gives [timeLeft = 60], [isRunning = false], [hasStarted = false], no
    reference instant and no requested frame; a second reset changes
    nothing. *)
Theorem reset_from_any_state (now : Q) (s : Widget) :
  reachable now s ->
  timeLeft (step Reset s) = 60
  /\ isRunning (step Reset s) = false
  /\ hasStarted (step Reset s) = false
  /\ startTimeRef (step Reset s) = None
  /\ pendingFrames (step Reset s) = []
  /\ step Reset (step Reset s) = step Reset s.
Proof.
  intros Hr. apply reachable_Inv in Hr.
  destruct s as [tl run hs ps cl ref st pend nh].
  destruct Hr as (_ & _ & _ & Hq & _).
  apply queueOk_weaken in Hq.
  rewrite (step_Reset_eq _ _ _ _ _ _ _ _ _ Hq).
  rewrite step_Reset_eq by (now left).
  repeat split.
Qed.

Lemma reset_from_any_state_witness :
  timeLeft (step Reset (run runThenPause mounted)) = 60
  /\ isRunning (step Reset (run runThenPause mounted)) = false
  /\ hasStarted (step Reset (run runThenPause mounted)) = false
  /\ startTimeRef (step Reset (run runThenPause mounted)) = None
  /\ pendingFrames (step Reset (run runThenPause mounted)) = []
  /\ step Reset (step Reset (run runThenPause mounted))
     = step Reset (run runThenPause mounted).
Proof.
  apply (reset_from_any_state 11000 (run runThenPause mounted)).
  apply reach_toggle.
  apply (reach_frame 1000); [| unfold Qle; simpl; lia].
  apply (reach_frame 0); [| unfold Qle; simpl; lia].
  apply reach_toggle. apply reach_mounted.
Defined.

(** C8: in every reachable state [timeLeft] is an integer between 0 and 60
    and the timer is not running when it is 0; so it is after a toggle, a
    reset and a frame of any later timestamp. *)
Theorem timeLeft_invariant (now : Q) (s : Widget) :
  reachable now s ->
  timeLeftOk s /\ timeLeftOk (step Toggle s) /\ timeLeftOk (step Reset s)
  /\ forall timestamp,
       (now <= timestamp)%Q -> timeLeftOk (step (Frame timestamp) s).
Proof.
  intros Hr.
  assert (Hok : forall n s', Inv n s' -> timeLeftOk s')
    by (intros n s' (H1 & H2 & _); split; assumption).
  pose proof (reachable_Inv _ _ Hr) as HI.
  split; [| split; [| split]].
  - apply (Hok now s HI).
  - apply (Hok now _ (Inv_toggle _ _ HI)).
  - apply (Hok now _ (Inv_reset _ _ HI)).
  - intros timestamp Hle. apply (Hok timestamp _ (Inv_frame _ _ _ HI Hle)).
Qed.

Lemma timeLeft_invariant_witness :
  timeLeftOk (run [Toggle; Frame 1000; Frame 11000] mounted)
  /\ timeLeftOk (step Toggle (run [Toggle; Frame 1000; Frame 11000] mounted))
  /\ timeLeftOk (step Reset (run [Toggle; Frame 1000; Frame 11000] mounted))
  /\ forall timestamp,
       (11000 <= timestamp)%Q ->
       timeLeftOk (step (Frame timestamp)
                     (run [Toggle; Frame 1000; Frame 11000] mounted)).
Proof.
  apply (timeLeft_invariant 11000 (run [Toggle; Frame 1000; Frame 11000] mounted)).
  apply (reach_frame 1000); [| unfold Qle; simpl; lia].
  apply (reach_frame 0); [| unfold Qle; simpl; lia].
  apply reach_toggle. apply reach_mounted.
Defined.

(** Whatever the timestamps, [updateTimer] never stores a negative
    [timeLeft]. *)
Lemma updateTimer_nonneg closure timestamp s :
  0 <= timeLeft (updateTimer closure timestamp s).
Proof. rewrite updateTimer_timeLeft. lia. Qed.

(** C10, as amended: [updateTimer], and the whole frame step with the
    commit that follows, leave [hasStarted], the layout and [isClient] as
    they were; what a step may write is [timeLeft], [isRunning], the
    reference instant and the frame handle with the host's queue. *)
Theorem updateTimer_frame_property (closure : bool) (timestamp : Q) (s : Widget) :
  (hasStarted (updateTimer closure timestamp s) = hasStarted s
   /\ circlePositions (updateTimer closure timestamp s) = circlePositions s
   /\ isClient (updateTimer closure timestamp s) = isClient s)
  /\ (hasStarted (step (Frame timestamp) s) = hasStarted s
      /\ circlePositions (step (Frame timestamp) s) = circlePositions s
      /\ isClient (step (Frame timestamp) s) = isClient s).
Proof.
  split; [apply updateTimer_frame |].
  unfold step, fireFrame.
  destruct (dequeueFrame s) as [[f s0] |] eqn:E; [| repeat split].
  destruct (dequeueFrame_frame _ _ _ E) as (H1 & H2 & H3).
  destruct (commit_frame s (updateTimer (closureIsRunning f) timestamp s0))
    as (C1 & C2 & C3).
  destruct (updateTimer_frame (closureIsRunning f) timestamp s0)
    as (U1 & U2 & U3).
  repeat split; congruence.
Qed.

(** C10 as stated fails: the first frame after a start requests the next
    frame and stores the new handle in [animationFrameRef]. *)
Lemma updateTimer_writes_frame_handle :
  animationFrameRef (step Toggle mounted) = Some 1%nat
  /\ animationFrameRef (step (Frame 1000) (step Toggle mounted)) = Some 2%nat
  /\ animationFrameRef (step (Frame 1000) (step Toggle mounted))
     <> animationFrameRef (step Toggle mounted).
Proof. repeat split. discriminate. Qed.

(** ** Claims about the layout *)

(** C9: for every ring count, two different dots that
    [generateCirclePositions] puts on the same ring have their centres at
    least one dot diameter ([CIRCLE_SIZE]) apart. *)
Theorem no_overlap_on_ring (NUM_RINGS : nat) (c1 c2 : CirclePosition) :
  In c1 (generateCirclePositions NUM_RINGS) ->
  In c2 (generateCirclePositions NUM_RINGS) ->
  ring c1 = ring c2 -> c1 <> c2 ->
  (CIRCLE_SIZE <= distance c1 c2)%R.
Proof.
  unfold generateCirclePositions.
  pose proof (ringsLoop_ring NUM_RINGS NUM_RINGS 0) as Hring.
  pose proof (ringsLoop_distance NUM_RINGS NUM_RINGS 0) as Hdist.
  destruct (ringsLoop NUM_RINGS NUM_RINGS 0) as [positions final].
  cbn [fst] in Hring, Hdist.
  intros H1 H2 Hr Hne.
  apply in_app_or in H1; apply in_app_or in H2.
  destruct H1 as [H1 | [<- | []]], H2 as [H2 | [<- | []]].
  - now apply Hdist.
  - apply Hring in H1. cbn [centerCircle ring] in Hr. lia.
  - apply Hring in H2. cbn [centerCircle ring] in Hr. lia.
  - now elim Hne.
Qed.

Lemma no_overlap_on_ring_witness :
  (CIRCLE_SIZE <= distance (circleAt 5 5 0 0) (circleAt 5 5 1 1))%R.
Proof.
  apply (no_overlap_on_ring 5).
  - rewrite generateCirclePositions_5. apply in_or_app; left.
    cbn [ringLoop]. left; reflexivity.
  - rewrite generateCirclePositions_5. apply in_or_app; left.
    cbn [ringLoop]. right; left; reflexivity.
  - reflexivity.
  - intros E. apply (f_equal sequenceIndex) in E.
    cbn [sequenceIndex circleAt] in E. discriminate E.
Defined.

(** ** Claims about the colors *)

Lemma ringKeys_In (r : Z) (n : nat) (q k : Z) :
  0 <= k < Z.of_nat n -> In (r, q + k) (ringKeys r n q).
Proof.
  revert q k; induction n as [| n IH]; intros q k Hk; [lia |].
  cbn [ringKeys]. destruct (Z.eq_dec k 0) as [-> | Hne].
  - left. now rewrite Z.add_0_r.
  - right. replace (q + k) with ((q + 1) + (k - 1)) by lia.
    apply IH. lia.
Qed.

Lemma totalCirclesOf_mounted :
  totalCirclesOf (circlePositions mounted) = 111.
Proof. exact totalCircles_mounted. Qed.

(** The second ring from outside holds the sequence indices 37 to 66. *)
Lemma layout_ring4 (k : Z) :
  0 <= k < 30 ->
  exists c, In c (circlePositions mounted)
            /\ ring c = 4 /\ sequenceIndex c = 37 + k.
Proof.
  intros Hk. apply In_layout_key. unfold layoutKeys.
  apply in_or_app; right. apply in_or_app; left.
  apply ringKeys_In. lia.
Qed.

(** The outer ring holds the sequence indices 0 to 36. *)
Lemma layout_ring5 (k : Z) :
  0 <= k < 37 ->
  exists c, In c (circlePositions mounted)
            /\ ring c = 5 /\ sequenceIndex c = 0 + k.
Proof.
  intros Hk. apply In_layout_key. unfold layoutKeys.
  apply in_or_app; left. apply ringKeys_In. lia.
Qed.

Lemma activeCircleCount_60 (T : Z) : activeCircleCount T 60 = T.
Proof.
  pose proof (activeCircleCount_bounds T 60). lia.
Qed.

(** C2, evaluated on the code.  In the mounted layout (111 non-center
    dots) the dot with sequence index 60 is on ring 4; with [hasStarted]
    it is dark at [timeLeft = 31] and white again at [timeLeft = 2]. *)
Theorem getCircleColor_relights :
  exists c,
    In c (circlePositions mounted)
    /\ isCenter c = false /\ sequenceIndex c = 60
    /\ getCircleColor true (totalCircles mounted) c 31 = INACTIVE_COLOR
    /\ getCircleColor true (totalCircles mounted) c 2 = ACTIVE_COLOR.
Proof.
  destruct (layout_ring4 23 ltac:(lia)) as (c & Hin & Hr & Hq).
  exists c. rewrite totalCircles_mounted.
  rewrite !(getCircleColor_key true 111 c). unfold key, isCenter.
  rewrite Hr, Hq. repeat split; assumption || reflexivity.
Qed.

(** C3, evaluated on the code.  At [timeLeft = 31] the mounted layout has
    [activeCircleCount = 57] but 55 active non-center dots, those with
    sequence index at most 54.  With 100 non-center dots,
    [activeCircleCount = 51] but 50 dots are active, and they are the dots
    with the lowest sequence indices, 0 to 49. *)
Theorem activeNonCenter_differs_from_activeCircleCount :
  (activeCircleCount (totalCircles mounted) 31 = 57
   /\ activeNonCenter true (circlePositions mounted) 31 = 55
   /\ forall c, In c (circlePositions mounted) -> isCenter c = false ->
        (isActive true (totalCircles mounted) c 31 = true
         <-> sequenceIndex c <= 54))
  /\ (totalCirclesOf hundredDots = 100
      /\ activeCircleCount 100 31 = 51
      /\ activeNonCenter true hundredDots 31 = 50
      /\ forall c, In c hundredDots -> isCenter c = false ->
           (isActive true 100 c 31 = true <-> sequenceIndex c <= 49)).
Proof.
  split; [split; [| split] | split; [| split; [| split]]].
  - rewrite totalCircles_mounted. reflexivity.
  - rewrite activeNonCenter_keys, totalCirclesOf_mounted.
    rewrite mounted_positions, generateCirclePositions_5_keys.
    vm_compute. reflexivity.
  - intros c _ Hc. rewrite totalCircles_mounted.
    unfold isCenter in Hc. apply Z.eqb_neq in Hc.
    rewrite (isActive_noncenter 111 c 31 Hc ltac:(lia)).
    change (111 - activeCircleCount 111 31) with 54.
    apply Z.leb_le.
  - reflexivity.
  - reflexivity.
  - rewrite activeNonCenter_keys. vm_compute. reflexivity.
  - intros c _ Hc.
    unfold isCenter in Hc. apply Z.eqb_neq in Hc.
    rewrite (isActive_noncenter 100 c 31 Hc ltac:(lia)).
    change (100 - activeCircleCount 100 31) with 49.
    apply Z.leb_le.
Qed.

(** C4, evaluated on the code.  On the mounted layout (111 non-center
    dots), with [hasStarted] and [2 <= timeLeft <= 59], a non-center dot is
    active exactly when its sequence index is at most
    [totalCircles - activeCircleCount]: the first half of the claim is what
    the code computes.  It does not extinguish dots as time decreases: the
    dot with sequence index 55 (ring 4) is inactive at [timeLeft = 31] and
    active one second later, at [timeLeft = 30]. *)
Theorem getCircleColor_lights_dots_as_time_decreases :
  (forall c t,
      In c (circlePositions mounted) -> ring c <> 0 -> 2 <= t <= 59 ->
      (isActive true (totalCircles mounted) c t = true
       <-> sequenceIndex c
           <= totalCircles mounted
              - activeCircleCount (totalCircles mounted) t))
  /\ (exists c,
        In c (circlePositions mounted)
        /\ ring c = 4 /\ sequenceIndex c = 55
        /\ isActive true (totalCircles mounted) c 31 = false
        /\ isActive true (totalCircles mounted) c 30 = true).
Proof.
  split.
  - intros c t _ Hr Ht.
    rewrite (isActive_noncenter (totalCircles mounted) c t Hr ltac:(lia)).
    apply Z.leb_le.
  - destruct (layout_ring4 18 ltac:(lia)) as (c & Hin & Hr & Hq).
    exists c. rewrite totalCircles_mounted.
    assert (Hne : ring c <> 0) by lia.
    rewrite !(isActive_noncenter 111 c) by (assumption || lia).
    rewrite Hq. repeat split; assumption || reflexivity.
Qed.

(** C5, evaluated on the code.  With [hasStarted], at [timeLeft = 60] the
    dot with sequence index 1 of the mounted layout is dark; a non-center dot
    is active there only if its sequence index is at most 0.  The center dot is
    active at 60, and at [timeLeft = 0] every dot is dark. *)
Theorem getCircleColor_boundaries :
  (exists c,
      In c (circlePositions mounted)
      /\ isCenter c = false /\ sequenceIndex c = 1
      /\ getCircleColor true (totalCircles mounted) c 60 = INACTIVE_COLOR)
  /\ (forall T c, ring c <> 0 ->
        (isActive true T c 60 = true <-> sequenceIndex c <= 0))
  /\ (forall T c, ring c = 0 -> getCircleColor true T c 60 = ACTIVE_COLOR)
  /\ (forall T c, getCircleColor true T c 0 = INACTIVE_COLOR).
Proof.
  split; [| split; [| split]].
  - destruct (layout_ring5 1 ltac:(lia)) as (c & Hin & Hr & Hq).
    exists c. rewrite totalCircles_mounted.
    rewrite (getCircleColor_key true 111 c). unfold key, isCenter.
    rewrite Hr, Hq. repeat split; assumption || reflexivity.
  - intros T c Hr.
    rewrite (isActive_noncenter T c 60 Hr ltac:(lia)).
    rewrite activeCircleCount_60, Z.sub_diag. apply Z.leb_le.
  - intros T c Hr. unfold getCircleColor. rewrite Hr. reflexivity.
  - intros T c. unfold getCircleColor. cbn [negb Z.eqb Z.leb Z.compare].
    destruct (ring c =? 0); reflexivity.
Qed.

(** ** What the code computes for the mounted layout *)

(** For the 111 dots of the layout the product under the ceiling is never
    a multiple of 59 while [2 <= timeLeft <= 59]: [percentage * totalCircles]
    stays at least 1/59 away from every integer, out of reach of the
    rounding of doubles. *)
Lemma layout_ceiling_not_integral (t : Z) :
  2 <= t <= 59 -> ((t - 1) * 111) mod 59 <> 0.
Proof.
  intros Ht Hmod.
  apply Z.mod_divide in Hmod; [| lia].
  destruct Hmod as (q & Hq). lia.
Qed.

(** With [hasStarted], the mounted layout shows
    [totalCircles - activeCircleCount + 1] active non-center dots. *)
Lemma activeNonCenter_mounted (t : Z) :
  2 <= t <= 59 ->
  activeNonCenter true (circlePositions mounted) t
  = 111 - activeCircleCount 111 t + 1.
Proof.
  intros Ht.
  rewrite activeNonCenter_keys, totalCirclesOf_mounted.
  rewrite mounted_positions, generateCirclePositions_5_keys.
  assert (Hall :
    forallb
      (fun n =>
         Z.of_nat (List.length
           (filter (fun k => negb (fst k =? 0)
                             && isActive true 111 (ofKey k) (2 + Z.of_nat n))
                   layoutKeys))
         =? 111 - activeCircleCount 111 (2 + Z.of_nat n) + 1)
      (seq 0 58) = true)
    by (vm_compute; reflexivity).
  rewrite forallb_forall in Hall.
  specialize (Hall (Z.to_nat (t - 2))).
  replace (2 + Z.of_nat (Z.to_nat (t - 2))) with t in Hall by lia.
  apply Z.eqb_eq, Hall, in_seq. lia.
Qed.

(** ** What the code does on pause and resume *)

Lemma commit_timeLeft prev next : timeLeft (commit prev next) = timeLeft next.
Proof.
  destruct next as [tl run hs ps cl ref st pend nh].
  unfold commit, timerEffect, timerCleanup.
  destruct (depsChanged prev _); [| reflexivity].
  destruct (truthyHandle _);
    cbn [cancelAnimationFrame isRunning timeLeft];
    match goal with
    | |- context [if ?b then _ else _] => destruct b
    end; reflexivity.
Qed.

(** A pause leaves the reference instant where it was. *)
Lemma toggle_pause_keeps_reference (s : Widget) :
  isRunning s = true -> startTimeRef (step Toggle s) = startTimeRef s.
Proof.
  destruct s as [tl run hs ps cl ref st pend nh]; widget_fields.
  intros ->. unfold step. rewrite toggleTimer_eq; cbn [negb andb].
  rewrite commit_changed by reflexivity.
  destruct (timerCleanup_shape tl false true ps cl ref st pend nh)
    as (pend' & ->).
  rewrite timerEffect_eq. reflexivity.
Qed.

(** A toggle does not touch a [timeLeft] other than 0. *)
Lemma toggle_keeps_timeLeft (s : Widget) :
  timeLeft s <> 0 -> timeLeft (step Toggle s) = timeLeft s.
Proof.
  destruct s as [tl run hs ps cl ref st pend nh]; widget_fields.
  intros Hne. unfold step. rewrite commit_timeLeft, toggleTimer_eq.
  widget_fields.
  destruct (Z.eqb_spec tl 0) as [E | _]; [contradiction |].
  now rewrite andb_false_r.
Qed.

(** The first frame after a resume measures the elapsed time from the
    reference instant of before the pause: the time spent paused counts. *)
Lemma resume_counts_from_old_reference (now : Q) (s : Widget)
    (t0 timestamp : Q) :
  reachable now s ->
  isRunning s = false -> timeLeft s <> 0 ->
  startTimeRef s = Some t0 -> Qeq_bool t0 0 = false ->
  timeLeft (step (Frame timestamp) (step Toggle s))
  = Z.max (60 - Qfloor ((timestamp - t0) / 1000)) 0.
Proof.
  intros Hr. apply reachable_Inv in Hr.
  destruct s as [tl run hs ps cl ref st pend nh].
  destruct Hr as (Htl & _ & _ & Hq & _).
  revert Htl Hq; unfold queueOk; widget_fields; intros Htl Hq.
  intros -> Hne -> Ht0.
  destruct Hq as [-> | (h & _ & _ & Hrun & _)]; [| discriminate Hrun].
  rewrite step_Toggle_eq by (now left).
  rewrite timerEffect_eq; cbn [negb andb].
  destruct (Z.eqb_spec tl 0) as [E | _]; [contradiction |].
  destruct (Z.gtb_spec tl 0) as [_ | Hle]; [| lia].
  cbn [app].
  rewrite fireFrame_one, commit_timeLeft, updateTimer_timeLeft.
  widget_fields. cbn [truthyTime]. rewrite Ht0. reflexivity.
Qed.

(** * Further properties of the layout *)

Lemma ringLoop_nth (N : nat) (r : Z) (n : nat) (i q : Z) (k : nat)
    (d : CirclePosition) :
  (k < n)%nat ->
  nth k (ringLoop N r n i q) d
  = circleAt N r (i + Z.of_nat k) (q + Z.of_nat k).
Proof.
  revert i q k; induction n as [| n IH]; intros i q k Hk; [lia |].
  cbn [ringLoop]. destruct k as [| k]; cbn [nth].
  - now rewrite !Z.add_0_r.
  - rewrite IH by lia. f_equal; lia.
Qed.

(** The outer loop hands out consecutive sequence indices and returns the
    next free one. *)
Lemma ringsLoop_sequence (N m : nat) (q : Z) :
  snd (ringsLoop N m q) = q + Z.of_nat (List.length (fst (ringsLoop N m q)))
  /\ forall k d, (k < List.length (fst (ringsLoop N m q)))%nat ->
       sequenceIndex (nth k (fst (ringsLoop N m q)) d) = q + Z.of_nat k.
Proof.
  revert q; induction m as [| m IH]; intros q.
  - cbn [ringsLoop fst snd List.length]. split; [lia | intros k d Hk; cbn in Hk; lia].
  - cbn [ringsLoop].
    specialize (IH (q + Z.of_nat (List.length (ringCircles N (Z.of_nat (S m)) q)))).
    destruct (ringsLoop N m _) as [rest final].
    cbn [fst snd] in *. destruct IH as [IHs IHn].
    rewrite length_app. split; [lia |].
    intros k d Hk.
    destruct (Nat.lt_ge_cases k (List.length (ringCircles N (Z.of_nat (S m)) q)))
      as [Hlt | Hge].
    + rewrite app_nth1 by assumption.
      unfold ringCircles in *. rewrite ringLoop_length in Hlt.
      rewrite ringLoop_nth by assumption. reflexivity.
    + rewrite app_nth2 by assumption.
      rewrite IHn by lia. lia.
Qed.

Lemma generateCirclePositions_split (N : nat) :
  generateCirclePositions N
  = fst (ringsLoop N N 0)
    ++ [centerCircle (Z.of_nat (List.length (fst (ringsLoop N N 0))))].
Proof.
  unfold generateCirclePositions.
  pose proof (ringsLoop_sequence N N 0) as [Hs _].
  destruct (ringsLoop N N 0) as [positions final]. cbn [fst snd] in *.
  now rewrite Hs.
Qed.

Lemma layout_sequenceIndex_nth (N : nat) (k : nat) (d : CirclePosition) :
  (k < List.length (generateCirclePositions N))%nat ->
  sequenceIndex (nth k (generateCirclePositions N) d) = Z.of_nat k.
Proof.
  rewrite generateCirclePositions_split, length_app.
  cbn [List.length]. intros Hk.
  pose proof (ringsLoop_sequence N N 0) as [_ Hn].
  destruct (Nat.lt_ge_cases k (List.length (fst (ringsLoop N N 0))))
    as [Hlt | Hge].
  - rewrite app_nth1 by assumption. now rewrite Hn.
  - rewrite app_nth2 by assumption.
    replace (k - List.length (fst (ringsLoop N N 0)))%nat with 0%nat by lia.
    cbn [nth centerCircle sequenceIndex]. lia.
Qed.



(** X2: the center dot comes last and is the only dot of ring 0; its
    sequence index is [totalCircles], the number of dots before it, and all
    of those lie on the rings [1 .. NUM_RINGS]. *)
Theorem center_is_last (N : nat) :
  exists positions,
    generateCirclePositions N
    = positions ++ [centerCircle (totalCirclesOf (generateCirclePositions N))]
    /\ totalCirclesOf (generateCirclePositions N)
       = Z.of_nat (List.length positions)
    /\ forall c, In c positions -> 1 <= ring c <= Z.of_nat N.
Proof.
  exists (fst (ringsLoop N N 0)).
  assert (HT : totalCirclesOf (generateCirclePositions N)
               = Z.of_nat (List.length (fst (ringsLoop N N 0)))).
  { unfold totalCirclesOf. rewrite generateCirclePositions_split, length_app.
    cbn [List.length]. lia. }
  split; [| split].
  - rewrite HT. apply generateCirclePositions_split.
  - exact HT.
  - intros c Hc. now apply (ringsLoop_ring N N 0).
Qed.

Lemma ringsLoop_In (N m : nat) (q : Z) (c : CirclePosition) :
  In c (fst (ringsLoop N m q)) ->
  exists r i q', 1 <= r <= Z.of_nat m /\ 0 <= i < numCircles N r
                 /\ c = circleAt N r i q'.
Proof.
  revert q; induction m as [| m IH]; intros q Hin; [destruct Hin |].
  cbn [ringsLoop] in Hin.
  specialize (IH (q + Z.of_nat (List.length (ringCircles N (Z.of_nat (S m)) q)))).
  destruct (ringsLoop N m _) as [rest final].
  cbn [fst] in *. apply in_app_or in Hin. destruct Hin as [Hin | Hin].
  - destruct (ringCircles_In _ _ _ _ Hin) as (i & Hi & ->).
    exists (Z.of_nat (S m)), i, (q + i). split; [lia | split; [assumption | reflexivity]].
  - destruct (IH Hin) as (r & i & q' & Hr & Hi & ->).
    exists r, i, q'. split; [lia | split; [assumption | reflexivity]].
Qed.

Section Geometry.

Local Open Scope R_scope.

Lemma ringRadius_range (N : nat) (r : Z) :
  (0 <= r <= Z.of_nat N)%Z -> 0 <= ringRadius N r <= RADIUS.
Proof.
  intros [H0 HN]. unfold ringRadius, SPACING, RADIUS.
  destruct (Z.eq_dec r 0) as [-> | Hne].
  - rewrite Rmult_0_l. lra.
  - rewrite INR_IZR_INZ.
    assert (Hr : 1 <= IZR r) by (apply IZR_le; lia).
    assert (HrN : IZR r <= IZR (Z.of_nat N)) by (apply IZR_le; lia).
    assert (Hinv : 0 < / IZR (Z.of_nat N)) by (apply Rinv_0_lt_compat; lra).
    assert (Hone : IZR (Z.of_nat N) * / IZR (Z.of_nat N) = 1)
      by (apply Rinv_r; lra).
    unfold Rdiv. split; nra.
Qed.

(** Every dot sits at its ring's radius from the center, at some angle. *)
Lemma layout_polar (N : nat) (c : CirclePosition) :
  In c (generateCirclePositions N) ->
  (0 <= ring c <= Z.of_nat N)%Z
  /\ exists a, x c = CENTER + ringRadius N (ring c) * cos a
               /\ y c = CENTER + ringRadius N (ring c) * sin a.
Proof.
  rewrite generateCirclePositions_split. intros Hin.
  apply in_app_or in Hin. destruct Hin as [Hin | [<- | []]].
  - destruct (ringsLoop_In _ _ _ _ Hin) as (r & i & q' & Hr & _ & ->).
    cbn [circleAt ring x y]. split; [lia |].
    exists (angle N r i). split; reflexivity.
  - cbn [centerCircle ring x y]. split; [lia |].
    exists 0. unfold ringRadius. rewrite !Rmult_0_l, Rplus_0_r.
    split; reflexivity.
Qed.

(** Two points on concentric circles are at least the difference of the
    radii apart. *)
Lemma concentric_distance (rho1 rho2 a b d : R) :
  0 <= rho1 -> 0 <= rho2 -> 0 <= d -> d <= rho1 - rho2 ->
  d <= sqrt ((rho1 * cos a - rho2 * cos b) * (rho1 * cos a - rho2 * cos b)
             + (rho1 * sin a - rho2 * sin b) * (rho1 * sin a - rho2 * sin b)).
Proof.
  intros H1 H2 Hd Hle.
  pose proof (sin2_cos2 a) as Ha. pose proof (sin2_cos2 b) as Hb.
  unfold Rsqr in Ha, Hb.
  pose proof (cos_minus a b) as Hm.
  pose proof (COS_bound (a - b)) as [_ Hc].
  rewrite <- (sqrt_square d) by assumption.
  apply sqrt_le_1_alt.
  assert (Hprod : 0 <= rho1 * rho2) by nra.
  assert (Hcos : rho1 * rho2 * cos (a - b) <= rho1 * rho2) by nra.
  rewrite Hm in Hcos. nra.
Qed.

End Geometry.

(** X3: every dot of the layout, for every ring count, keeps the padding
    margin from the border of the [SIZE] x [SIZE] view box, so the drawn
    circle of radius [CIRCLE_SIZE / 2] is never clipped. *)
Theorem dots_inside_viewBox (N : nat) (c : CirclePosition) :
  In c (generateCirclePositions N) ->
  (PADDING <= x c <= SIZE - PADDING)%R /\ (PADDING <= y c <= SIZE - PADDING)%R.
Proof.
  intros Hin. destruct (layout_polar N c Hin) as (Hr & a & -> & ->).
  pose proof (ringRadius_range N (ring c) Hr) as Hrho.
  pose proof (COS_bound a) as Hc. pose proof (SIN_bound a) as Hs.
  unfold CENTER, SIZE, PADDING, CIRCLE_SIZE, RADIUS in *.
  split; split; nra.
Qed.

Lemma dots_inside_viewBox_witness :
  (PADDING <= x (circleAt 5 5 1 1) <= SIZE - PADDING)%R
  /\ (PADDING <= y (circleAt 5 5 1 1) <= SIZE - PADDING)%R.
Proof.
  apply (dots_inside_viewBox 5).
  rewrite generateCirclePositions_5. apply in_or_app; left.
  cbn [ringLoop]. right; left; reflexivity.
Defined.

Lemma SPACING_ge_diameter (N : nat) :
  (1 <= N <= 12)%nat -> (CIRCLE_SIZE <= SPACING N)%R.
Proof.
  intros HN. unfold SPACING, RADIUS, CIRCLE_SIZE. rewrite INR_IZR_INZ.
  assert (H1 : (1 <= IZR (Z.of_nat N))%R) by (apply IZR_le; lia).
  assert (H12 : (IZR (Z.of_nat N) <= 12)%R) by (apply IZR_le; lia).
  assert (Hinv : (0 < / IZR (Z.of_nat N))%R) by (apply Rinv_0_lt_compat; lra).
  assert (Hone : (IZR (Z.of_nat N) * / IZR (Z.of_nat N) = 1)%R)
    by (apply Rinv_r; lra).
  unfold Rdiv. nra.
Qed.

(** Dots of two different rings are at least one ring spacing apart. *)
Lemma distance_across_rings (N : nat) (c1 c2 : CirclePosition) :
  In c1 (generateCirclePositions N) -> In c2 (generateCirclePositions N) ->
  ring c2 < ring c1 ->
  (0 <= SPACING N)%R ->
  (SPACING N <= distance c1 c2)%R.
Proof.
  intros H1 H2 Hlt Hsp.
  destruct (layout_polar N c1 H1) as (Hr1 & a & Hx1 & Hy1).
  destruct (layout_polar N c2 H2) as (Hr2 & b & Hx2 & Hy2).
  unfold distance. rewrite Hx1, Hy1, Hx2, Hy2.
  assert (Hd : (1 <= IZR (ring c1) - IZR (ring c2))%R)
    by (rewrite <- minus_IZR; apply IZR_le; lia).
  assert (H0 : (0 <= IZR (ring c2))%R) by (apply IZR_le; lia).
  match goal with
  | |- (_ <= sqrt ?e)%R =>
      replace e with
        ((ringRadius N (ring c1) * cos a - ringRadius N (ring c2) * cos b)
         * (ringRadius N (ring c1) * cos a - ringRadius N (ring c2) * cos b)
         + (ringRadius N (ring c1) * sin a - ringRadius N (ring c2) * sin b)
           * (ringRadius N (ring c1) * sin a - ringRadius N (ring c2) * sin b))%R
        by ring
  end.
  apply concentric_distance; unfold ringRadius; nra.
Qed.

(** X5: with at most 11 rings (the source has 5), where the ring spacing
    [RADIUS / NUM_RINGS] is at least 96/11 and so clearly above the dot
    diameter, no two different dots of the whole layout overlap, whether on
    one ring, on two rings or at the center: their centres are at least
    [CIRCLE_SIZE] apart. *)
Theorem layout_no_overlap (N : nat) (c1 c2 : CirclePosition) :
  (N <= 11)%nat ->
  In c1 (generateCirclePositions N) -> In c2 (generateCirclePositions N) ->
  c1 <> c2 ->
  (CIRCLE_SIZE <= distance c1 c2)%R.
Proof.
  intros HN H1 H2 Hne.
  destruct (layout_polar N c1 H1) as (Hr1 & _).
  destruct (layout_polar N c2 H2) as (Hr2 & _).
  destruct (Z.lt_trichotomy (ring c1) (ring c2)) as [Hlt | [Heq | Hgt]].
  - assert (Hsp := SPACING_ge_diameter N ltac:(lia)).
    rewrite distance_sym.
    apply Rle_trans with (SPACING N); [assumption |].
    apply distance_across_rings; try assumption.
    unfold CIRCLE_SIZE in Hsp. lra.
  - revert H1 H2. rewrite generateCirclePositions_split. intros H1 H2.
    apply in_app_or in H1; apply in_app_or in H2.
    destruct H1 as [H1 | [<- | []]], H2 as [H2 | [<- | []]].
    + now apply (ringsLoop_distance N N 0).
    + apply (ringsLoop_ring N N 0) in H1. cbn [centerCircle ring] in Heq. lia.
    + apply (ringsLoop_ring N N 0) in H2. cbn [centerCircle ring] in Heq. lia.
    + now elim Hne.
  - assert (Hsp := SPACING_ge_diameter N ltac:(lia)).
    apply Rle_trans with (SPACING N); [assumption |].
    apply distance_across_rings; try assumption.
    unfold CIRCLE_SIZE in Hsp. lra.
Qed.

Lemma layout_no_overlap_witness :
  (CIRCLE_SIZE <= distance (circleAt 5 5 0 0) (circleAt 5 4 0 37))%R.
Proof.
  apply (layout_no_overlap 5).
  - lia.
  - rewrite generateCirclePositions_5. apply in_or_app; left.
    cbn [ringLoop]. left; reflexivity.
  - rewrite generateCirclePositions_5.
    apply in_or_app; right. apply in_or_app; left.
    cbn [ringLoop]. left; reflexivity.
  - intros E. apply (f_equal ring) in E.
    cbn [ring circleAt] in E. discriminate E.
Defined.

(** X6: a ring never holds fewer dots than a ring inside it. *)
Theorem numCircles_monotone (N : nat) (r r' : Z) :
  (1 <= N)%nat -> 0 <= r <= r' -> numCircles N r <= numCircles N r'.
Proof.
  intros HN [H0 Hle]. unfold numCircles. apply Zfloor_le.
  pose proof PI_bounds as HP.
  assert (Hsp : (0 < SPACING N)%R).
  { unfold SPACING, RADIUS. rewrite INR_IZR_INZ.
    apply Rdiv_lt_0_compat; [lra |]. apply IZR_lt. lia. }
  assert (Hr : (IZR r <= IZR r')%R) by (apply IZR_le; lia).
  assert (Hrad : (ringRadius N r <= ringRadius N r')%R)
    by (unfold ringRadius; nra).
  assert (Hcirc : (PI * ringRadius N r <= PI * ringRadius N r')%R) by nra.
  unfold circumference, CIRCLE_SIZE. lra.
Qed.

Lemma numCircles_monotone_witness : numCircles 5 2 <= numCircles 5 4.
Proof.
  apply (numCircles_monotone 5 2 4); lia.
Defined.

Lemma ringLoop_filter_ring (N : nat) (r : Z) (n : nat) (i q r' : Z) :
  filter (fun c => ring c =? r') (ringLoop N r n i q)
  = if r =? r' then ringLoop N r n i q else [].
Proof.
  revert i q; induction n as [| n IH]; intros i q; cbn [ringLoop filter].
  - now destruct (r =? r').
  - rewrite IH. cbn [circleAt ring]. now destruct (r =? r').
Qed.

(** How many dots the outer loop puts on ring [r]. *)
Lemma ringsLoop_ring_count (N m : nat) (q r : Z) :
  List.length (filter (fun c => ring c =? r) (fst (ringsLoop N m q)))
  = if (1 <=? r) && (r <=? Z.of_nat m)
    then Z.to_nat (numCircles N r) else 0%nat.
Proof.
  revert q; induction m as [| m IH]; intros q.
  - cbn [ringsLoop fst filter List.length].
    destruct (Z.leb_spec 1 r), (Z.leb_spec r (Z.of_nat 0)); cbn [andb];
      try reflexivity; lia.
  - cbn [ringsLoop].
    specialize (IH (q + Z.of_nat (List.length (ringCircles N (Z.of_nat (S m)) q)))).
    destruct (ringsLoop N m _) as [rest final]. cbn [fst] in *.
    rewrite filter_app, length_app, IH.
    unfold ringCircles at 1. rewrite ringLoop_filter_ring.
    destruct (Z.eqb_spec (Z.of_nat (S m)) r) as [E | E].
    + rewrite ringLoop_length. subst r.
      destruct (Z.leb_spec 1 (Z.of_nat (S m))); [| lia].
      destruct (Z.leb_spec (Z.of_nat (S m)) (Z.of_nat m)); [lia |].
      destruct (Z.leb_spec (Z.of_nat (S m)) (Z.of_nat (S m))); [| lia].
      cbn [andb]. lia.
    + cbn [List.length].
      destruct (Z.leb_spec 1 r); cbn [andb]; [| reflexivity].
      destruct (Z.leb_spec r (Z.of_nat m)), (Z.leb_spec r (Z.of_nat (S m)));
        try reflexivity; lia.
Qed.

(** X7: the bookkeeping fields of a dot are right: [totalInRing] is the
    number of dots of the layout that share its ring, and [anglePosition]
    is a slot number below it. *)
Theorem totalInRing_counts_ring (N : nat) (c : CirclePosition) :
  In c (generateCirclePositions N) ->
  0 <= anglePosition c < totalInRing c
  /\ Z.of_nat (List.length
       (filter (fun c' => ring c' =? ring c) (generateCirclePositions N)))
     = totalInRing c.
Proof.
  rewrite generateCirclePositions_split. intros Hin.
  rewrite filter_app, length_app, ringsLoop_ring_count.
  apply in_app_or in Hin. destruct Hin as [Hin | [<- | []]].
  - destruct (ringsLoop_In _ _ _ _ Hin) as (r & i & q' & Hr & Hi & ->).
    cbn [circleAt ring anglePosition totalInRing filter centerCircle].
    destruct (Z.leb_spec 1 r); [| lia].
    destruct (Z.leb_spec r (Z.of_nat N)); [| lia].
    destruct (Z.eqb_spec 0 r); [lia |].
    cbn [andb List.length]. lia.
  - cbn [centerCircle ring anglePosition totalInRing filter Z.eqb Z.leb
         Z.compare andb List.length]. lia.
Qed.

Lemma totalInRing_counts_ring_witness :
  0 <= anglePosition (circleAt 5 5 1 1) < totalInRing (circleAt 5 5 1 1)
  /\ Z.of_nat (List.length
       (filter (fun c' => ring c' =? ring (circleAt 5 5 1 1))
               (generateCirclePositions 5)))
     = totalInRing (circleAt 5 5 1 1).
Proof.
  apply (totalInRing_counts_ring 5).
  rewrite generateCirclePositions_5. apply in_or_app; left.
  cbn [ringLoop]. right; left; reflexivity.
Defined.

(** * Further properties of the countdown controller *)

Lemma truthyTime_Some_inv r t :
  truthyTime r = Some t -> r = Some t /\ truthyTime (Some t) = Some t.
Proof.
  intros H. pose proof (truthyTime_Some r t H) as ->. auto.
Qed.

Lemma Qfloor_elapsed_mono (t0 now timestamp : Q) :
  (now <= timestamp)%Q ->
  Qfloor ((now - t0) / 1000) <= Qfloor ((timestamp - t0) / 1000).
Proof.
  intros Hle. apply Qfloor_resp_le.
  apply Qmult_le_compat_r; [lra | discriminate].
Qed.

(** The reference instant that [updateTimer] uses is usable again, unless
    it is the frame's own timestamp. *)
Lemma reference_truthy st timestamp t1 :
  truthyTime (Some match truthyTime st with
                   | Some t => t
                   | None => timestamp
                   end) = Some t1 ->
  t1 = match truthyTime st with Some t => t | None => timestamp end.
Proof.
  intros H. apply truthyTime_Some in H. congruence.
Qed.

Lemma Inv2_mounted positions : Inv2 0 (mountedWith positions).
Proof.
  unfold Inv2, mountedWith; cbn.
  repeat split; try discriminate; auto.
Qed.

Lemma Inv2_toggle now s : Inv now s -> Inv2 now s -> Inv2 now (step Toggle s).
Proof.
  destruct s as [tl run hs ps cl ref st pend nh].
  intros (Htl & Hz & _ & Hq & _) (_ & _ & H3 & H4).
  pose proof (queueOk_weaken _ _ _ _ _ _ _ _ _ Hq) as Hw.
  revert Htl Hz H3 H4; widget_fields; intros Htl Hz H3 H4.
  rewrite (step_Toggle_eq _ _ _ _ _ _ _ _ _ Hw), timerEffect_eq.
  unfold Inv2.
  destruct run; cbn [negb andb].
  - widget_fields. repeat split; try discriminate; auto.
  - destruct (Z.eqb_spec tl 0) as [E | E]; cbn [Z.gtb Z.compare].
    + widget_fields. cbn [truthyTime].
      repeat split; try discriminate; auto.
    + destruct (Z.gtb_spec tl 0); [| lia]. widget_fields.
      repeat split; try discriminate; auto.
Qed.

Lemma Inv2_reset now s : Inv now s -> Inv2 now (step Reset s).
Proof.
  destruct s as [tl run hs ps cl ref st pend nh].
  intros (_ & _ & _ & Hq & _).
  pose proof (queueOk_weaken _ _ _ _ _ _ _ _ _ Hq) as Hw.
  rewrite (step_Reset_eq _ _ _ _ _ _ _ _ _ Hw).
  unfold Inv2; widget_fields; cbn [truthyTime].
  repeat split; try discriminate; auto.
Qed.

Lemma Inv2_frame now timestamp s :
  Inv now s -> Inv2 now s -> (now <= timestamp)%Q ->
  Inv2 timestamp (step (Frame timestamp) s).
Proof.
  destruct s as [tl run hs ps cl ref st pend nh].
  intros (Htl & Hz & _ & Hq & Hnh) (H1 & H2 & H3 & H4) Hle.
  revert Htl Hz Hq Hnh H1 H2 H3 H4; unfold queueOk; widget_fields.
  intros Htl Hz Hq Hnh H1 H2 H3 H4.
  destruct nh as [| nh]; [lia |].
  destruct Hq as [-> | (h & -> & -> & -> & Hpos)].
  - rewrite fireFrame_none. unfold Inv2; widget_fields.
    repeat split; try apply H2; auto.
    intros t0 E. specialize (H4 t0 E).
    pose proof (Qfloor_elapsed_mono t0 now timestamp Hle). lia.
  - assert (Hhs : hs = true)
      by (destruct hs; [reflexivity | destruct (H2 eq_refl) as (_ & F & _); discriminate F]).
    subst hs.
    rewrite fireFrame_one, updateTimer_eq. cbv zeta. widget_fields.
    assert (Hfresh : truthyTime st = None ->
              Qfloor ((timestamp
                       - match truthyTime st with
                         | Some t => t
                         | None => timestamp
                         end) / 1000) = 0)
      by (intros ->; apply Qfloor_no_elapsed).
    assert (Hkeep :
              truthyTime (Some match truthyTime st with
                               | Some t => t
                               | None => timestamp
                               end) = None -> truthyTime st = None).
    { intros E. destruct (truthyTime st) as [t |] eqn:Est; [| reflexivity].
      destruct (truthyTime_Some_inv _ _ Est) as (_ & Ett). congruence. }
    set (start := match truthyTime st with Some t => t | None => timestamp end) in *.
    set (e := Qfloor ((timestamp - start) / 1000)) in *.
    rewrite andb_true_r.
    destruct (Z.gtb_spec (Z.max (60 - e) 0) 0) as [Hgt | Hgt].
    + assert (Hfinal :
        forall ref' pend' nh',
          pend' <> [] ->
          Inv2 timestamp
            (mkWidget (Z.max (60 - e) 0) true true ps cl ref' (Some start)
                      pend' nh')).
      { intros ref' pend' nh' Hp. unfold Inv2; widget_fields.
        repeat split; try discriminate; auto.
        - intros E. left. rewrite (Hfresh (Hkeep E)). reflexivity.
        - intros t1 E. apply reference_truthy in E. subst t1 e start.
          apply Z.le_refl. }
      destruct (Z.eq_dec tl (Z.max (60 - e) 0)) as [E | E].
      * rewrite commit_unchanged
          by (apply depsChanged_false_iff; widget_fields; auto).
        apply Hfinal. discriminate.
      * rewrite commit_changed.
        2:{ unfold depsChanged; widget_fields.
            destruct (Z.eqb_spec tl (Z.max (60 - e) 0)); [contradiction |].
            reflexivity. }
        rewrite timerCleanup_eq by (right; exists nh, true; auto).
        rewrite timerEffect_eq. cbn [andb].
        destruct (Z.gtb_spec (Z.max (60 - e) 0) 0); [| lia].
        apply Hfinal. discriminate.
    + assert (E0 : Z.max (60 - e) 0 = 0) by lia. rewrite E0. cbn [Z.eqb].
      rewrite commit_changed by reflexivity.
      rewrite timerCleanup_eq by (left; reflexivity).
      rewrite timerEffect_eq. cbn [andb].
      unfold Inv2; widget_fields; cbn [truthyTime].
      repeat split; try discriminate; auto.
Qed.

Lemma reachable_Inv2 now s : reachable now s -> Inv2 now s.
Proof.
  induction 1 as [positions | now s Hr IH | now s Hr IH | now s ts Hr IH Hle].
  - apply Inv2_mounted.
  - apply Inv2_toggle; [now apply reachable_Inv | assumption].
  - apply (Inv2_reset now). now apply reachable_Inv.
  - apply (Inv2_frame now); [now apply reachable_Inv | assumption | assumption].
Qed.

(** The queue of a reachable state, read off the two invariants. *)
Lemma reachable_queue now s :
  reachable now s ->
  (isRunning s = false /\ pendingFrames s = [])
  \/ (exists h, isRunning s = true /\ 0 < timeLeft s
                /\ pendingFrames s = [mkFrameRequest (S h) true]
                /\ animationFrameRef s = Some (S h)).
Proof.
  intros Hr.
  destruct (reachable_Inv _ _ Hr) as (_ & _ & _ & Hq & _).
  destruct (reachable_Inv2 _ _ Hr) as (H1 & _).
  destruct Hq as [Hq | (h & Hp & Href & Hrun & Hpos)].
  - left. split; [| assumption].
    destruct (isRunning s); [| reflexivity].
    now elim (H1 eq_refl).
  - right. exists h. auto.
Qed.

(** X8: in every reachable state a frame is requested exactly when the
    timer is running; there is never more than one, it is the one whose
    handle [animationFrameRef] holds, and its callback saw
    [isRunning = true].  No callback is left over after a pause, a reset or
    the end of the run. *)
Theorem frame_requested_iff_running (now : Q) (s : Widget) :
  reachable now s ->
  (isRunning s = true <-> pendingFrames s <> [])
  /\ (List.length (pendingFrames s) <= 1)%nat
  /\ forall f, In f (pendingFrames s) ->
       animationFrameRef s = Some (handle f) /\ closureIsRunning f = true.
Proof.
  intros Hr.
  destruct (reachable_queue _ _ Hr)
    as [(Hrun & Hp) | (h & Hrun & _ & Hp & Href)]; rewrite Hrun, Hp.
  - split; [split; [discriminate | intros F; now elim F] |].
    split; [cbn; lia | intros f []].
  - split; [split; [discriminate | reflexivity] |].
    split; [cbn; lia |].
    intros f [<- | []]. cbn [handle closureIsRunning]. auto.
Qed.

Lemma frame_requested_iff_running_witness :
  (isRunning (run runThenPause mounted) = true
   <-> pendingFrames (run runThenPause mounted) <> [])
  /\ (List.length (pendingFrames (run runThenPause mounted)) <= 1)%nat
  /\ forall f, In f (pendingFrames (run runThenPause mounted)) ->
       animationFrameRef (run runThenPause mounted) = Some (handle f)
       /\ closureIsRunning f = true.
Proof.
  apply (frame_requested_iff_running 11000 (run runThenPause mounted)).
  apply reach_toggle.
  apply (reach_frame 1000); [| unfold Qle; simpl; lia].
  apply (reach_frame 0); [| unfold Qle; simpl; lia].
  apply reach_toggle. apply reach_mounted.
Defined.

(** X9: a frame never makes [timeLeft] grow: in every reachable state, for
    every timestamp not before the latest one, [timeLeft] after the frame is
    at most [timeLeft] before it. *)
Theorem frame_never_increases_timeLeft (now timestamp : Q) (s : Widget) :
  reachable now s -> (now <= timestamp)%Q ->
  timeLeft (step (Frame timestamp) s) <= timeLeft s.
Proof.
  intros Hr Hle.
  destruct (reachable_Inv2 _ _ Hr) as (_ & _ & H3 & H4).
  destruct (reachable_queue _ _ Hr)
    as [(Hrun & Hp) | (h & Hrun & Hpos & Hp & Href)];
    destruct s as [tl run hs ps cl ref st pend nh];
    revert Hp H3 H4; widget_fields; intros -> H3 H4.
  - rewrite fireFrame_none. widget_fields. lia.
  - revert Hpos; widget_fields; intros Hpos.
    rewrite fireFrame_one, commit_timeLeft, updateTimer_timeLeft.
    widget_fields.
    destruct (truthyTime st) as [t0 |] eqn:Est.
    + specialize (H4 t0 eq_refl).
      pose proof (Qfloor_elapsed_mono t0 now timestamp Hle). lia.
    + rewrite Qfloor_no_elapsed. destruct (H3 eq_refl); lia.
Qed.

Lemma frame_never_increases_timeLeft_witness :
  timeLeft (step (Frame 12500) (run [Toggle; Frame 1000; Frame 11000] mounted))
  <= timeLeft (run [Toggle; Frame 1000; Frame 11000] mounted).
Proof.
  apply (frame_never_increases_timeLeft 11000 12500).
  - apply (reach_frame 1000); [| unfold Qle; simpl; lia].
    apply (reach_frame 0); [| unfold Qle; simpl; lia].
    apply reach_toggle. apply reach_mounted.
  - unfold Qle; simpl; lia.
Defined.

(** X10: while [hasStarted] is false the widget is untouched: it shows the
    full 60 seconds, is not running, has no reference instant and no frame
    requested. *)
Theorem not_started_is_pristine (now : Q) (s : Widget) :
  reachable now s -> hasStarted s = false ->
  timeLeft s = 60 /\ isRunning s = false /\ startTimeRef s = None
  /\ pendingFrames s = [].
Proof.
  intros Hr Hs.
  destruct (reachable_Inv2 _ _ Hr) as (_ & H2 & _).
  destruct (H2 Hs) as (Htl & Hrun & Hst).
  repeat split; try assumption.
  destruct (reachable_queue _ _ Hr) as [(_ & Hp) | (h & Hrun' & _)];
    [assumption | congruence].
Qed.

Lemma not_started_is_pristine_witness :
  timeLeft (run (runThenPause ++ [Reset]) mounted) = 60
  /\ isRunning (run (runThenPause ++ [Reset]) mounted) = false
  /\ startTimeRef (run (runThenPause ++ [Reset]) mounted) = None
  /\ pendingFrames (run (runThenPause ++ [Reset]) mounted) = [].
Proof.
  apply (not_started_is_pristine 11000 (run (runThenPause ++ [Reset]) mounted)).
  - apply reach_reset. apply reach_toggle.
    apply (reach_frame 1000); [| unfold Qle; simpl; lia].
    apply (reach_frame 0); [| unfold Qle; simpl; lia].
    apply reach_toggle. apply reach_mounted.
  - reflexivity.
Defined.

Lemma Qfloor_lt_60 (t0 timestamp : Q) :
  (timestamp < t0 + 60000)%Q -> Qfloor ((timestamp - t0) / 1000) < 60.
Proof.
  intros Hlt. rewrite Zlt_Qlt. change (inject_Z 60) with 60%Q.
  apply Qle_lt_trans with ((timestamp - t0) / 1000)%Q; [apply Qfloor_le |].
  apply Qlt_shift_div_r; [reflexivity | lra].
Qed.

Lemma Qfloor_ge_60 (t0 timestamp : Q) :
  (t0 + 60000 <= timestamp)%Q -> 60 <= Qfloor ((timestamp - t0) / 1000).
Proof.
  intros Hle. change 60 with (Qfloor 60).
  apply Qfloor_resp_le. apply Qle_shift_div_l; [reflexivity | lra].
Qed.

(** A frame of a running timer before the 60 seconds are over: the state
    keeps its shape, with [timeLeft] recomputed from the reference. *)
Lemma frame_running_continues tl hs ps cl h st nh t0 timestamp :
  truthyTime st = Some t0 -> (timestamp < t0 + 60000)%Q ->
  exists h' nh',
    step (Frame timestamp)
      (mkWidget tl true hs ps cl (Some (S h)) st
                [mkFrameRequest (S h) true] (S nh))
    = mkWidget (Z.max (60 - Qfloor ((timestamp - t0) / 1000)) 0) true hs ps cl
               (Some (S h')) (Some t0) [mkFrameRequest (S h') true] (S nh').
Proof.
  intros Est Hlt. pose proof (Qfloor_lt_60 _ _ Hlt) as He.
  rewrite fireFrame_one, updateTimer_eq. cbv zeta. widget_fields.
  rewrite Est, andb_true_r.
  set (ntl := Z.max (60 - Qfloor ((timestamp - t0) / 1000)) 0) in *.
  assert (Hpos : 0 < ntl) by (unfold ntl; lia).
  destruct (Z.gtb_spec ntl 0) as [_ | F]; [| lia].
  destruct (Z.eq_dec tl ntl) as [E | E].
  - rewrite commit_unchanged
      by (apply depsChanged_false_iff; widget_fields; auto).
    exists nh, (S nh). reflexivity.
  - rewrite commit_changed.
    2:{ unfold depsChanged; widget_fields.
        destruct (Z.eqb_spec tl ntl); [contradiction | reflexivity]. }
    rewrite timerCleanup_eq by (right; exists nh, true; auto).
    rewrite timerEffect_eq. cbn [andb].
    destruct (Z.gtb_spec ntl 0) as [_ | F]; [| lia].
    exists (S nh), (S (S nh)). reflexivity.
Qed.

(** A frame of a running timer once the 60 seconds are over. *)
Lemma frame_running_completes tl hs ps cl h st nh t0 timestamp :
  truthyTime st = Some t0 -> (t0 + 60000 <= timestamp)%Q ->
  step (Frame timestamp)
    (mkWidget tl true hs ps cl (Some (S h)) st
              [mkFrameRequest (S h) true] nh)
  = mkWidget 0 false hs ps cl (Some (S h)) None [] nh.
Proof.
  intros Est Hle. pose proof (Qfloor_ge_60 _ _ Hle) as He.
  rewrite fireFrame_one, updateTimer_eq. cbv zeta. widget_fields.
  rewrite Est.
  replace (Z.max (60 - Qfloor ((timestamp - t0) / 1000)) 0) with 0 by lia.
  cbn [Z.gtb Z.eqb Z.compare andb].
  rewrite commit_changed by reflexivity.
  rewrite timerCleanup_eq by (left; reflexivity).
  now rewrite timerEffect_eq.
Qed.

(** A reachable running state, in explicit form. *)
Lemma reachable_running now s :
  reachable now s -> isRunning s = true ->
  exists tl hs ps cl h st nh,
    s = mkWidget tl true hs ps cl (Some (S h)) st
                 [mkFrameRequest (S h) true] (S nh)
    /\ 0 < tl.
Proof.
  intros Hr Hrun.
  destruct (reachable_Inv _ _ Hr) as (_ & _ & _ & _ & Hnh).
  destruct (reachable_queue _ _ Hr)
    as [(Hrun' & _) | (h & _ & Hpos & Hp & Href)]; [congruence |].
  destruct s as [tl run hs ps cl ref st pend nh].
  revert Hrun Hnh Hpos Hp Href; widget_fields. intros -> Hnh Hpos -> ->.
  destruct nh as [| nh]; [lia |].
  exists tl, hs, ps, cl, h, st, nh. auto.
Qed.

(** For timestamps in whole milliseconds the elapsed seconds are an
    integer division; there the subtraction and the division of the source,
    done on doubles, are exact below 2^53. *)
Lemma Qfloor_whole_ms (z z0 : Z) :
  Qfloor ((inject_Z z - inject_Z z0) / 1000) = (z - z0) / 1000.
Proof.
  unfold Qfloor, Qdiv, Qminus, Qplus, Qmult, Qopp, Qinv, inject_Z.
  cbn [Qnum Qden Pos.mul]. f_equal. ring.
Qed.

Lemma whole_ms_lt (z z0 : Z) :
  z < z0 + 60000 -> (inject_Z z < inject_Z z0 + 60000)%Q.
Proof.
  intros H. rewrite Zlt_Qlt, inject_Z_plus in H. exact H.
Qed.

Lemma whole_ms_le (z z0 : Z) :
  z0 + 60000 <= z -> (inject_Z z0 + 60000 <= inject_Z z)%Q.
Proof.
  intros H. rewrite Zle_Qle, inject_Z_plus in H. exact H.
Qed.

(** X11: with timestamps in whole milliseconds (below 2^53), a running
    countdown whose reference instant is [z0] ends at a frame exactly when
    that frame's timestamp is [z0 + 60000] or later, and at no earlier frame;
    the frame that ends it leaves [timeLeft = 0], no reference instant and no
    requested frame. *)
Theorem run_completes_after_60_seconds (now : Q) (z0 z : Z) (s : Widget) :
  reachable now s -> isRunning s = true ->
  truthyTime (startTimeRef s) = Some (inject_Z z0) ->
  0 <= z0 < 2 ^ 53 -> 0 <= z < 2 ^ 53 ->
  (isRunning (step (Frame (inject_Z z)) s) = false <-> z0 + 60000 <= z)
  /\ (z0 + 60000 <= z ->
      timeLeft (step (Frame (inject_Z z)) s) = 0
      /\ startTimeRef (step (Frame (inject_Z z)) s) = None
      /\ pendingFrames (step (Frame (inject_Z z)) s) = []).
Proof.
  intros Hr Hrun Est _ _.
  destruct (reachable_running _ _ Hr Hrun)
    as (tl & hs & ps & cl & h & st & nh & -> & Hpos).
  revert Est; widget_fields; intros Est.
  split.
  - split.
    + intros Hstop. destruct (Z_lt_le_dec z (z0 + 60000)) as [Hlt | Hle];
        [| assumption].
      destruct (frame_running_continues tl hs ps cl h st nh _ _ Est
                  (whole_ms_lt _ _ Hlt)) as (h' & nh' & E).
      rewrite E in Hstop. discriminate Hstop.
    + intros Hle.
      now rewrite (frame_running_completes _ _ _ _ _ _ _ _ _ Est
                     (whole_ms_le _ _ Hle)).
  - intros Hle.
    rewrite (frame_running_completes _ _ _ _ _ _ _ _ _ Est
               (whole_ms_le _ _ Hle)).
    repeat split.
Qed.

Lemma run_completes_after_60_seconds_witness :
  (isRunning (step (Frame (inject_Z 61000)) (run [Toggle; Frame 1000] mounted))
   = false
   <-> 1000 + 60000 <= 61000)
  /\ (1000 + 60000 <= 61000 ->
      timeLeft (step (Frame (inject_Z 61000)) (run [Toggle; Frame 1000] mounted))
      = 0
      /\ startTimeRef
           (step (Frame (inject_Z 61000)) (run [Toggle; Frame 1000] mounted))
         = None
      /\ pendingFrames
           (step (Frame (inject_Z 61000)) (run [Toggle; Frame 1000] mounted))
         = []).
Proof.
  apply (run_completes_after_60_seconds 1000 1000 61000
           (run [Toggle; Frame 1000] mounted)).
  - apply (reach_frame 0); [| unfold Qle; simpl; lia].
    apply reach_toggle. apply reach_mounted.
  - reflexivity.
  - reflexivity.
  - lia.
  - lia.
Defined.

(** Any number of frames within the 60 seconds, on an explicit running
    state. *)
Lemma frames_within_run (t0 : Q) (l : list Q) :
  l <> [] -> (forall ts, In ts l -> (ts < t0 + 60000)%Q) ->
  forall tl hs ps cl h st nh,
    truthyTime st = Some t0 ->
    let s' := run (map Frame l)
                (mkWidget tl true hs ps cl (Some (S h)) st
                          [mkFrameRequest (S h) true] (S nh)) in
    timeLeft s' = Z.max (60 - Qfloor ((last l 0%Q - t0) / 1000)) 0
    /\ isRunning s' = true /\ startTimeRef s' = Some t0.
Proof.
  induction l as [| ts l IH]; intros Hne Hall tl hs ps cl h st nh Est;
    [now elim Hne |].
  cbn [map run].
  destruct (frame_running_continues tl hs ps cl h st nh t0 ts Est
              (Hall ts (or_introl eq_refl))) as (h' & nh' & ->).
  destruct l as [| ts' l'].
  - cbn [map run last]. repeat split.
  - destruct (truthyTime_Some_inv _ _ Est) as (_ & Est').
    specialize (IH ltac:(discriminate)
                   (fun t Ht => Hall t (or_intror Ht))
                   (Z.max (60 - Qfloor ((ts - t0) / 1000)) 0)
                   hs ps cl h' (Some t0) nh' Est').
    exact IH.
Qed.

Lemma last_inject_Z (l : list Z) :
  last (map inject_Z l) 0%Q = inject_Z (last l 0).
Proof.
  induction l as [| z [| z' l'] IH]; try reflexivity.
  exact IH.
Qed.

(** X12: with timestamps in whole milliseconds (below 2^53), what a
    running countdown shows depends on the timestamp of the latest frame
    only, not on how many frames came before: after any burst of frames
    earlier than 60 s after the reference instant [z0], [timeLeft] is
    [60 - (last - z0) / 1000] with the integer division (never below 0), the
    timer still runs and the reference instant is unchanged. *)
Theorem timeLeft_depends_on_last_frame (now : Q) (z0 : Z) (l : list Z)
    (s : Widget) :
  reachable now s -> isRunning s = true ->
  truthyTime (startTimeRef s) = Some (inject_Z z0) ->
  0 <= z0 < 2 ^ 52 ->
  l <> [] -> (forall z, In z l -> 0 <= z < z0 + 60000) ->
  timeLeft (run (map (fun z => Frame (inject_Z z)) l) s)
  = Z.max (60 - (last l 0 - z0) / 1000) 0
  /\ isRunning (run (map (fun z => Frame (inject_Z z)) l) s) = true
  /\ startTimeRef (run (map (fun z => Frame (inject_Z z)) l) s)
     = Some (inject_Z z0).
Proof.
  intros Hr Hrun Est _ Hne Hall.
  destruct (reachable_running _ _ Hr Hrun)
    as (tl & hs & ps & cl & h & st & nh & -> & Hpos).
  revert Est; widget_fields; intros Est.
  rewrite <- (map_map inject_Z Frame).
  rewrite <- Qfloor_whole_ms, <- last_inject_Z.
  apply frames_within_run; try assumption.
  - destruct l; [now elim Hne | discriminate].
  - intros ts Hin. apply in_map_iff in Hin. destruct Hin as (z & <- & Hz).
    apply whole_ms_lt. apply (Hall z Hz).
Qed.

Lemma timeLeft_depends_on_last_frame_witness :
  timeLeft (run (map (fun z => Frame (inject_Z z)) [1016; 1033; 4500; 11000])
                (run [Toggle; Frame 1000] mounted))
  = Z.max (60 - (last [1016; 1033; 4500; 11000] 0 - 1000) / 1000) 0
  /\ isRunning (run (map (fun z => Frame (inject_Z z))
                         [1016; 1033; 4500; 11000])
                    (run [Toggle; Frame 1000] mounted)) = true
  /\ startTimeRef (run (map (fun z => Frame (inject_Z z))
                            [1016; 1033; 4500; 11000])
                       (run [Toggle; Frame 1000] mounted))
     = Some (inject_Z 1000).
Proof.
  apply (timeLeft_depends_on_last_frame 1000 1000
           [1016; 1033; 4500; 11000] (run [Toggle; Frame 1000] mounted)).
  - apply (reach_frame 0); [| unfold Qle; simpl; lia].
    apply reach_toggle. apply reach_mounted.
  - reflexivity.
  - reflexivity.
  - lia.
  - discriminate.
  - intros z [<- | [<- | [<- | [<- | []]]]]; lia.
Defined.

(** X13: a pause followed at once by a resume gives back the state of
    before the pause: [timeLeft], [isRunning], [hasStarted], the reference
    instant and the layout are the same, and again exactly one frame is
    requested. *)
Theorem pause_then_resume_restores (now : Q) (s : Widget) :
  reachable now s -> isRunning s = true ->
  timeLeft (step Toggle (step Toggle s)) = timeLeft s
  /\ isRunning (step Toggle (step Toggle s)) = true
  /\ hasStarted (step Toggle (step Toggle s)) = hasStarted s
  /\ startTimeRef (step Toggle (step Toggle s)) = startTimeRef s
  /\ circlePositions (step Toggle (step Toggle s)) = circlePositions s
  /\ List.length (pendingFrames (step Toggle (step Toggle s))) = 1%nat.
Proof.
  intros Hr Hrun.
  assert (Hs : hasStarted s = true).
  { destruct (reachable_Inv2 _ _ Hr) as (_ & H2 & _).
    destruct (hasStarted s); [reflexivity |].
    destruct (H2 eq_refl) as (_ & F & _). congruence. }
  destruct (reachable_running _ _ Hr Hrun)
    as (tl & hs & ps & cl & h & st & nh & -> & Hpos).
  revert Hs; widget_fields; intros ->.
  rewrite step_Toggle_eq by (right; exists h, true; auto).
  rewrite timerEffect_eq. cbn [negb andb].
  rewrite step_Toggle_eq by (now left).
  rewrite timerEffect_eq. cbn [negb andb].
  destruct (Z.eqb_spec tl 0) as [E | _]; [lia |].
  destruct (Z.gtb_spec tl 0) as [_ | F]; [| lia].
  repeat split.
Qed.

Lemma pause_then_resume_restores_witness :
  timeLeft (step Toggle (step Toggle (run [Toggle; Frame 1000; Frame 11000] mounted)))
  = timeLeft (run [Toggle; Frame 1000; Frame 11000] mounted)
  /\ isRunning (step Toggle (step Toggle (run [Toggle; Frame 1000; Frame 11000] mounted)))
     = true
  /\ hasStarted (step Toggle (step Toggle (run [Toggle; Frame 1000; Frame 11000] mounted)))
     = hasStarted (run [Toggle; Frame 1000; Frame 11000] mounted)
  /\ startTimeRef (step Toggle (step Toggle (run [Toggle; Frame 1000; Frame 11000] mounted)))
     = startTimeRef (run [Toggle; Frame 1000; Frame 11000] mounted)
  /\ circlePositions (step Toggle (step Toggle (run [Toggle; Frame 1000; Frame 11000] mounted)))
     = circlePositions (run [Toggle; Frame 1000; Frame 11000] mounted)
  /\ List.length
       (pendingFrames (step Toggle (step Toggle (run [Toggle; Frame 1000; Frame 11000] mounted))))
     = 1%nat.
Proof.
  apply (pause_then_resume_restores 11000
           (run [Toggle; Frame 1000; Frame 11000] mounted)).
  - apply (reach_frame 1000); [| unfold Qle; simpl; lia].
    apply (reach_frame 0); [| unfold Qle; simpl; lia].
    apply reach_toggle. apply reach_mounted.
  - reflexivity.
Defined.

Lemma step_keeps_layout (e : Event) (s : Widget) :
  circlePositions (step e s) = circlePositions s
  /\ isClient (step e s) = isClient s.
Proof.
  destruct e as [| | timestamp]; unfold step.
  - destruct (commit_frame s (toggleTimer s)) as (_ & -> & ->).
    destruct s as [tl run hs ps cl ref st pend nh].
    rewrite toggleTimer_eq. split; reflexivity.
  - destruct (commit_frame s (reset s)) as (_ & -> & ->).
    destruct s as [tl run hs ps cl ref st pend nh]. unfold reset.
    destruct (timerCleanup_shape tl run hs ps cl ref st pend nh) as (pend' & ->).
    split; reflexivity.
  - unfold fireFrame.
    destruct (dequeueFrame s) as [[f s0] |] eqn:E; [| split; reflexivity].
    destruct (dequeueFrame_frame _ _ _ E) as (_ & H2 & H3).
    destruct (commit_frame s (updateTimer (closureIsRunning f) timestamp s0))
      as (_ & -> & ->).
    destruct (updateTimer_frame (closureIsRunning f) timestamp s0)
      as (_ & -> & ->).
    split; assumption.
Qed.

(** X14: no sequence of toggles, resets and frames, with whatever
    timestamps, ever changes the generated layout or [isClient]; so
    [totalCircles], which [getCircleColor] depends on, is fixed once the
    widget is mounted. *)
Theorem run_keeps_layout (events : list Event) (s : Widget) :
  circlePositions (run events s) = circlePositions s
  /\ isClient (run events s) = isClient s
  /\ totalCircles (run events s) = totalCircles s.
Proof.
  revert s; induction events as [| e events IH]; intros s; cbn [run].
  - repeat split.
  - destruct (IH (step e s)) as (H1 & H2 & _).
    destruct (step_keeps_layout e s) as (S1 & S2).
    unfold totalCircles. rewrite H1, H2, S1, S2. repeat split.
Qed.

(** * Further properties of the layout and the colors *)

(** X15: [sequenceIndex], which the rendering uses as the key of a dot,
    identifies the dot: two dots of the layout with the same sequence index
    are the same dot. *)
Theorem sequenceIndex_is_a_key (N : nat) (c1 c2 : CirclePosition) :
  In c1 (generateCirclePositions N) -> In c2 (generateCirclePositions N) ->
  sequenceIndex c1 = sequenceIndex c2 -> c1 = c2.
Proof.
  intros H1 H2 Heq.
  destruct (In_nth _ _ c1 H1) as (k1 & Hk1 & E1).
  destruct (In_nth _ _ c1 H2) as (k2 & Hk2 & E2).
  pose proof (layout_sequenceIndex_nth N k1 c1 Hk1) as S1.
  pose proof (layout_sequenceIndex_nth N k2 c1 Hk2) as S2.
  rewrite E1 in S1. rewrite E2 in S2.
  assert (k1 = k2) by lia. subst k2. congruence.
Qed.

Lemma sequenceIndex_is_a_key_witness :
  nth 1 (generateCirclePositions 5) (centerCircle 0) = circleAt 5 5 1 1.
Proof.
  apply (sequenceIndex_is_a_key 5).
  - apply nth_In. rewrite generateCirclePositions_5_length. lia.
  - rewrite generateCirclePositions_5. apply in_or_app; left.
    cbn [ringLoop]. right; left; reflexivity.
  - rewrite layout_sequenceIndex_nth; [reflexivity |].
    rewrite generateCirclePositions_5_length. lia.
Defined.

(** X16: the number that [getCircleColor] computes as [activeCircleCount]
    stays within the dots there are: for [totalCircles >= 0] and
    [2 <= currentTime <= 60] it is between 0 and [totalCircles] (at least 1
    when there is a dot), it does not decrease when more time is left, and
    with the full 60 seconds left it is [totalCircles]. *)
Theorem activeCircleCount_within_total (T t t' : Z) :
  0 <= T -> 2 <= t <= t' -> t' <= 60 ->
  0 <= activeCircleCount T t
  /\ (1 <= T -> 1 <= activeCircleCount T t)
  /\ activeCircleCount T t <= activeCircleCount T t'
  /\ activeCircleCount T t' <= T
  /\ activeCircleCount T 60 = T.
Proof.
  intros HT Ht Ht'.
  pose proof (activeCircleCount_bounds T t) as Hb.
  pose proof (activeCircleCount_range T t HT ltac:(lia)) as Hr.
  pose proof (activeCircleCount_range T t' HT ltac:(lia)) as Hr'.
  pose proof (activeCircleCount_mono T t' t HT ltac:(lia)) as Hm.
  split; [lia |]. split; [| split; [assumption | split; [lia |]]].
  - intros H1. assert (0 < (t - 1) * T) by nia. lia.
  - apply activeCircleCount_60.
Qed.

Lemma activeCircleCount_within_total_witness :
  0 <= activeCircleCount 111 31
  /\ (1 <= 111 -> 1 <= activeCircleCount 111 31)
  /\ activeCircleCount 111 31 <= activeCircleCount 111 45
  /\ activeCircleCount 111 45 <= 111
  /\ activeCircleCount 111 60 = 111.
Proof.
  apply (activeCircleCount_within_total 111 31 45); lia.
Defined.

(** X17: once started, the center dot is the last one lit: whenever some
    non-center dot is active the center dot is active too, and at
    [timeLeft = 1] the active dots are exactly the dots of ring 0. *)
Theorem center_dot_is_last_lit :
  (forall T c c' t,
      ring c = 0 -> ring c' <> 0 ->
      isActive true T c' t = true -> isActive true T c t = true)
  /\ (forall T c, isActive true T c 1 = true <-> ring c = 0).
Proof.
  split.
  - intros T c c' t Hc Hc' Hact.
    rewrite (isActive_center T c t Hc).
    destruct (Z.le_gt_cases t 1) as [Hle | Hgt].
    + rewrite (isActive_last_second T c' t Hc' Hle) in Hact. discriminate Hact.
    + destruct (Z.eqb_spec t 0); [lia | reflexivity].
  - intros T c. destruct (Z.eq_dec (ring c) 0) as [E | E].
    + rewrite (isActive_center T c 1 E). split; auto.
    + rewrite (isActive_last_second T c 1 E ltac:(lia)).
      split; [discriminate | contradiction].
Qed.

Lemma frame_keeps_hasStarted (timestamp : Q) (s : Widget) :
  hasStarted (step (Frame timestamp) s) = hasStarted s.
Proof.
  unfold step, fireFrame.
  destruct (dequeueFrame s) as [[f s0] |] eqn:E; [| reflexivity].
  destruct (dequeueFrame_frame _ _ _ E) as (H1 & _).
  destruct (commit_frame s (updateTimer (closureIsRunning f) timestamp s0))
    as (-> & _).
  destruct (updateTimer_frame (closureIsRunning f) timestamp s0) as (-> & _).
  assumption.
Qed.

(** X18: whatever happened before, a reset followed by a start begins a
    full run: after reset, toggle and the first frame, [timeLeft] is 60, the
    timer runs, [hasStarted] is set and the reference instant is the
    timestamp of that frame. *)
Theorem reset_then_start_is_fresh (now timestamp : Q) (s : Widget) :
  reachable now s ->
  timeLeft (run [Reset; Toggle; Frame timestamp] s) = 60
  /\ isRunning (run [Reset; Toggle; Frame timestamp] s) = true
  /\ hasStarted (run [Reset; Toggle; Frame timestamp] s) = true
  /\ startTimeRef (run [Reset; Toggle; Frame timestamp] s) = Some timestamp.
Proof.
  intros Hr.
  destruct (reachable_Inv _ _ Hr) as (_ & _ & _ & Hq & _).
  destruct s as [tl running hs ps cl ref st pend nh].
  apply queueOk_weaken in Hq. cbn [run].
  rewrite (step_Reset_eq _ _ _ _ _ _ _ _ _ Hq).
  rewrite step_Toggle_eq by (now left).
  rewrite timerEffect_eq. cbn [negb andb Z.eqb Z.gtb Z.compare app].
  pose proof (frame_without_reference timestamp true true ps cl (Some nh)
                (mkFrameRequest nh true) [] (S nh)) as Hf.
  cbv zeta in Hf. destruct Hf as (H1 & H2 & H3).
  rewrite frame_keeps_hasStarted.
  repeat split; assumption.
Qed.

Lemma reset_then_start_is_fresh_witness :
  timeLeft (run [Reset; Toggle; Frame 20000] (run runThenPause mounted)) = 60
  /\ isRunning (run [Reset; Toggle; Frame 20000] (run runThenPause mounted))
     = true
  /\ hasStarted (run [Reset; Toggle; Frame 20000] (run runThenPause mounted))
     = true
  /\ startTimeRef (run [Reset; Toggle; Frame 20000] (run runThenPause mounted))
     = Some 20000%Q.
Proof.
  apply (reset_then_start_is_fresh 11000 20000 (run runThenPause mounted)).
  apply reach_toggle.
  apply (reach_frame 1000); [| unfold Qle; simpl; lia].
  apply (reach_frame 0); [| unfold Qle; simpl; lia].
  apply reach_toggle. apply reach_mounted.
Defined.
